(** * exchange-shared: request-admission middleware

    A shallow embedding of the gRPC interceptors of [pkg/interceptors]
    (authentication and layered rate limiting), of [pkg/common.GetUserID],
    and of the per-user eviction sweep, followed by the properties of the
    specification that can be settled on them.

    Conventions of the embedding.
    - Go strings are [string] (a sequence of bytes); [map[string]T] is
      [gmap string T].
    - Instants and durations are [Z] nanoseconds ([time.Duration] is an
      [int64] count of nanoseconds; [Time.Sub] saturates at its range).
    - A call of an interceptor is taken at one clock reading [now]: every
      [time.Now()] of that call, including the one inside
      [rate.Limiter.Allow], returns it.
    - The interceptors are run one call at a time (a sequential schedule);
      the mutexes are then always free when taken and are not represented.
    - What a call does to its collaborators (limiters consulted, validator
      and handler invoked) is recorded in a list of events returned next to
      the result. The records written to a logger are not events; a nil
      logger is represented, since calling it panics. *)

From Stdlib Require Import ZArith Lia.
From stdpp Require Import gmap strings list fin_maps.

Local Open Scope Z_scope.

(** ** gRPC status codes ([google.golang.org/grpc/codes]) *)

Inductive Code :=
| OK | Canceled | Unknown | InvalidArgument | DeadlineExceeded | NotFound
| AlreadyExists | PermissionDenied | ResourceExhausted | FailedPrecondition
| Aborted | OutOfRange | Unimplemented | Internal | Unavailable | DataLoss
| Unauthenticated.

Record Status := { code : Code; message : string }.

(** [status.Error(c, msg)] *)
Definition Error (c : Code) (msg : string) : Status :=
  {| code := c; message := msg |}.

(** ** The token bucket ([golang.org/x/time/rate]) *)

Module rate.

(** One second, in nanoseconds; token counts are kept in billionths of a
    token so that [limit] tokens per second is [limit] units per
    nanosecond. *)
Definition Second : Z := 1000000000.

(** Modelled from the spec: [rate.Limiter] is an external dependency
    whose source is not part of the repository. The specification gives
    its contract: it holds a rate (tokens per second) and a burst
    capacity, refills continuously over time up to the burst, and
    [Allow()] atomically consumes one token if one is available and
    returns whether the call may proceed. The rate is an integral number
    of tokens per second here. *)
Record Limiter := {
  limit : Z;   (* tokens per second *)
  burst : Z;   (* capacity, in tokens *)
  tokens : Z;  (* current content, in billionths of a token *)
  last : Z     (* instant of the last update of [tokens] *)
}.

(** Modelled from the spec: [rate.NewLimiter(r, b)], a bucket that starts
    full. *)
Definition NewLimiter (r : Z) (b : Z) : Limiter :=
  {| limit := r; burst := b; tokens := b * Second; last := 0 |}.

(** Modelled from the spec: the content of the bucket at [now], after the
    continuous refill since [last], capped at the burst. *)
Definition advance (now : Z) (lim : Limiter) : Z :=
  Z.min (burst lim * Second)
        (tokens lim + limit lim * Z.max 0 (now - last lim)).

(** Modelled from the spec: [lim.Allow()] at instant [now]. A token is
    consumed only when one is available; a refused call leaves the
    limiter as it was. *)
Definition Allow (now : Z) (lim : Limiter) : bool * Limiter :=
  let t := advance now lim in
  if Second <=? t
  then (true, {| limit := limit lim; burst := burst lim;
                 tokens := t - Second; last := now |})
  else (false, lim).

End rate.

(** ** Call context: incoming metadata and context values *)

(** [metadata.MD] is [map[string][]string]. *)
Abbreviation MD := (gmap string (list string)).

(** [md.Get(k)]: the values stored under [k] (the keys used by this code
    are already lower-case, so the lower-casing of [Get] is the
    identity). *)
Definition MD_Get (md : MD) (k : string) : list string :=
  default [] (md !! k).

(** Values of Go's [any] that the code stores or inspects. *)
Inductive any :=
| AnyNil
| AnyString (s : string)
| AnyStrings (l : list string)   (* []string *)
| AnyNumber (n : Z)
| AnyOther.                      (* any other dynamic type, e.g. []interface{} *)

(** [context.Context]: the incoming metadata, if any, and the chain of
    [context.WithValue] bindings, the most recent first. *)
Record Context := {
  incoming : option MD;
  values : list (string * any)
}.

(** [metadata.FromIncomingContext(ctx)] *)
Definition FromIncomingContext (ctx : Context) : option MD := incoming ctx.

(** [context.WithValue(ctx, k, v)] *)
Definition WithValue (ctx : Context) (k : string) (v : any) : Context :=
  {| incoming := incoming ctx; values := (k, v) :: values ctx |}.

(** [ctx.Value(k)]: the most recent binding of [k]. *)
Fixpoint lookupValue (vs : list (string * any)) (k : string) : option any :=
  match vs with
  | [] => None
  | (k', v) :: rest => if String.eqb k' k then Some v else lookupValue rest k
  end.

Definition Value (ctx : Context) (k : string) : option any :=
  lookupValue (values ctx) k.

(** ** [pkg/common] *)

Module common.

Definition UserIDKey : string := "user_id".

Definition GetUserID (ctx : Context) : string :=
  match FromIncomingContext ctx with
  | None => ""
  | Some md =>
      match MD_Get md UserIDKey with
      | [] => ""
      | v :: _ => v
      end
  end.

End common.

(** ** [pkg/interceptors]: rate limiting *)

(** Which limiter a call consulted. *)
Inductive LimiterRef :=
| DefaultLimiter
| MethodLimiter (method : string)
| UserLimiter (userID : string).

(** What a call did to its collaborators, in order. *)
Inductive Event :=
| Allowed (l : LimiterRef) (ok : bool)   (* [l.Allow()] returned [ok] *)
| NewUserLimiter (userID : string)       (* a [userLimiterStruct] was allocated *)
| Validated (token : string)             (* [jwtValidator.Validate(token)] *)
| HandlerCalled.                         (* [handler(ctx, req)] *)

(** How a unary interceptor ends: with the result of the next handler, run
    on the given context; with a status error and no result; or with a
    run-time panic. *)
Inductive Outcome :=
| Handled (ctx : Context)
| Failed (st : Status)
| Panicked (reason : string).

Record Reply := { events : list Event; outcome : Outcome }.

Record userLimiterStruct := {
  limiter : rate.Limiter;
  lastUsed : Z
}.

(** The interceptor's state. Every [*rate.Limiter] and every
    [*userLimiterStruct] held here is held by this one reference, so the
    fields hold the objects themselves and an update through the pointer is
    an update of the field or of the table entry. *)
Record MethodRateLimiterInterceptor := {
  methodLimiters : gmap string rate.Limiter;
  defaultLimiter : rate.Limiter;
  perUserLimiters : gmap string userLimiterStruct;
  perUserRate : Z;
  perUserBurst : Z;
  cleanupInterval : Z;
  maxAge : Z
}.

Definition Minute : Z := 60 * rate.Second.

Definition NewMethodRateLimiterInterceptor (defaultLimit defaultBurst : Z)
  : MethodRateLimiterInterceptor :=
  {| methodLimiters := ∅;
     defaultLimiter := rate.NewLimiter defaultLimit defaultBurst;
     perUserLimiters := ∅;
     perUserRate := 0;
     perUserBurst := 0;
     cleanupInterval := 5 * Minute;
     maxAge := 15 * Minute |}.

Definition with_defaultLimiter (l : rate.Limiter) (m : MethodRateLimiterInterceptor) :=
  {| methodLimiters := methodLimiters m; defaultLimiter := l;
     perUserLimiters := perUserLimiters m; perUserRate := perUserRate m;
     perUserBurst := perUserBurst m; cleanupInterval := cleanupInterval m;
     maxAge := maxAge m |}.

Definition with_methodLimiters (t : gmap string rate.Limiter) (m : MethodRateLimiterInterceptor) :=
  {| methodLimiters := t; defaultLimiter := defaultLimiter m;
     perUserLimiters := perUserLimiters m; perUserRate := perUserRate m;
     perUserBurst := perUserBurst m; cleanupInterval := cleanupInterval m;
     maxAge := maxAge m |}.

Definition with_perUserLimiters (t : gmap string userLimiterStruct) (m : MethodRateLimiterInterceptor) :=
  {| methodLimiters := methodLimiters m; defaultLimiter := defaultLimiter m;
     perUserLimiters := t; perUserRate := perUserRate m;
     perUserBurst := perUserBurst m; cleanupInterval := cleanupInterval m;
     maxAge := maxAge m |}.

Definition SetMethodLimit (method : string) (limit : Z) (burst : Z)
    (m : MethodRateLimiterInterceptor) : MethodRateLimiterInterceptor :=
  with_methodLimiters (<[method := rate.NewLimiter limit burst]> (methodLimiters m)) m.

Definition SetPerUserLimit (limit : Z) (burst : Z)
    (m : MethodRateLimiterInterceptor) : MethodRateLimiterInterceptor :=
  {| methodLimiters := methodLimiters m; defaultLimiter := defaultLimiter m;
     perUserLimiters := perUserLimiters m; perUserRate := limit;
     perUserBurst := burst; cleanupInterval := cleanupInterval m;
     maxAge := maxAge m |}.

(** Lines 87-90 of [Interceptor]: [m.defaultLimiter.Allow()]. *)
Definition globalTier (now : Z) (m : MethodRateLimiterInterceptor)
  : bool * MethodRateLimiterInterceptor :=
  let '(ok, l) := rate.Allow now (defaultLimiter m) in
  (ok, with_defaultLimiter l m).

(** Lines 92-100 of [Interceptor]: the local variable [limiter] is the
    default limiter unless the table has one for the method; [Allow] goes
    through that pointer, so the limiter it points to is updated where it
    lives. Returns which limiter was consulted, its verdict and the new
    state. *)
Definition methodTier (now : Z) (FullMethod : string) (m : MethodRateLimiterInterceptor)
  : LimiterRef * bool * MethodRateLimiterInterceptor :=
  match methodLimiters m !! FullMethod with
  | Some methodLimiter =>
      let '(ok, l) := rate.Allow now methodLimiter in
      (MethodLimiter FullMethod, ok,
       with_methodLimiters (<[FullMethod := l]> (methodLimiters m)) m)
  | None =>
      let '(ok, l) := rate.Allow now (defaultLimiter m) in
      (DefaultLimiter, ok, with_defaultLimiter l m)
  end.

(** Lines 104-131 of [Interceptor]: the per-user tier, for a non-empty
    [userID]. The table is read twice, without and then with the write
    lock; on a sequential schedule both reads see the same table. An entry
    found in the table is updated in place. An entry that is not found is
    allocated, used for this call, and never stored: the table is left as
    it was. Returns the events, the verdict of the user's limiter and the
    new state. *)
Definition perUserTier (now : Z) (userID : string) (m : MethodRateLimiterInterceptor)
  : list Event * bool * MethodRateLimiterInterceptor :=
  let touch (user : userLimiterStruct) :=
    (* user.lastUsed = time.Now(); user.limiter.Allow() *)
    let '(ok, l) := rate.Allow now (limiter user) in
    (ok, {| limiter := l; lastUsed := now |}) in
  let stored (user : userLimiterStruct) :=
    let '(ok, user') := touch user in
    ([Allowed (UserLimiter userID) ok], ok,
     with_perUserLimiters (<[userID := user']> (perUserLimiters m)) m) in
  match perUserLimiters m !! userID with
  | Some user => stored user
  | None =>
      match perUserLimiters m !! userID with
      | Some user => stored user
      | None =>
          let user := {| limiter := rate.NewLimiter (perUserRate m) (perUserBurst m);
                         lastUsed := now |} in
          let '(ok, _) := touch user in
          ([NewUserLimiter userID; Allowed (UserLimiter userID) ok], ok, m)
      end
  end.

(** The interceptor returned by [Interceptor()], applied to a call of
    [FullMethod] with context [ctx] at instant [now]. *)
Definition Interceptor (now : Z) (ctx : Context) (FullMethod : string)
    (m : MethodRateLimiterInterceptor) : Reply * MethodRateLimiterInterceptor :=
  (* Global limit *)
  let '(ok1, m1) := globalTier now m in
  if negb ok1 then
    ({| events := [Allowed DefaultLimiter false];
        outcome := Failed (Error ResourceExhausted "global rate limit exceeded") |}, m1)
  else
  (* Per-method limit *)
  let '(r, ok2, m2) := methodTier now FullMethod m1 in
  if negb ok2 then
    ({| events := [Allowed DefaultLimiter true; Allowed r false];
        outcome := Failed (Error ResourceExhausted "method rate limit exceeded") |}, m2)
  else
  let tiers := [Allowed DefaultLimiter true; Allowed r true] in
  (* Per-user limit *)
  if 0 <? perUserRate m2 then
    let userID := common.GetUserID ctx in
    if String.eqb userID "" then
      ({| events := tiers;
          outcome := Failed (Error InvalidArgument "user_id is required") |}, m2)
    else
      let '(evs, ok3, m3) := perUserTier now userID m2 in
      if negb ok3 then
        ({| events := tiers ++ evs;
            outcome := Failed (Error ResourceExhausted "per-user rate limit exceeded") |}, m3)
      else
        ({| events := tiers ++ evs ++ [HandlerCalled]; outcome := Handled ctx |}, m3)
  else
    ({| events := tiers ++ [HandlerCalled]; outcome := Handled ctx |}, m2).

(** [Time.Sub]: the difference of two instants, saturated to the range of
    [time.Duration]. *)
Definition minDuration : Z := - 2 ^ 63.
Definition maxDuration : Z := 2 ^ 63 - 1.

Definition Sub (t u : Z) : Z :=
  Z.max minDuration (Z.min maxDuration (t - u)).

(** The scan of one tick of [cleanupOldUsers] (lines 145-151): the
    identities whose entry was last used more than [maxAge] before
    [now]. *)
Definition staleUsers (now : Z) (m : MethodRateLimiterInterceptor) : list string :=
  (filter (fun entry : string * userLimiterStruct =>
             maxAge m < Sub now (lastUsed entry.2))
          (map_to_list (perUserLimiters m))).*1.

(** One tick of [cleanupOldUsers] at instant [now] (the body of the loop
    over [ticker.C], lines 142-161). After the scan, a non-empty
    [toDelete] makes the loop [continue] to the next tick; the delete pass
    below it runs on an empty [toDelete] only. *)
Definition cleanupTick (now : Z) (m : MethodRateLimiterInterceptor)
  : MethodRateLimiterInterceptor :=
  let toDelete := staleUsers now m in
  if (0 <? length toDelete)%nat then m
  else
    with_perUserLimiters
      (foldl (fun t userID => delete userID t) (perUserLimiters m) toDelete) m.

(** [cleanupOldUsers] over the ticks at the given instants. *)
Definition cleanupOldUsers (ticks : list Z) (m : MethodRateLimiterInterceptor)
  : MethodRateLimiterInterceptor :=
  foldl (fun m now => cleanupTick now m) m ticks.

(** A sequence of calls [(now, ctx, FullMethod)] served one after the
    other. *)
Fixpoint serve (calls : list (Z * Context * string)) (m : MethodRateLimiterInterceptor)
  : list Reply * MethodRateLimiterInterceptor :=
  match calls with
  | [] => ([], m)
  | (now, ctx, FullMethod) :: rest =>
      let '(r, m') := Interceptor now ctx FullMethod m in
      let '(rs, m'') := serve rest m' in
      (r :: rs, m'')
  end.

(** A context whose incoming metadata carries [user_id: userID]. *)
Definition ctxOf (userID : string) : Context :=
  {| incoming := Some {[ "user_id" := [userID] ]}; values := [] |}.


(** ** [pkg/interceptors]: authentication *)

(** [strings.HasPrefix(s, prefix)] *)
Fixpoint HasPrefix (s prefix : string) {struct prefix} : bool :=
  match prefix with
  | EmptyString => true
  | String p prefix' =>
      match s with
      | EmptyString => false
      | String c s' => Ascii.eqb c p && HasPrefix s' prefix'
      end
  end.

(** [s[n:]]: the string without its first [n] bytes; slicing beyond the
    length of the string panics ([None]). *)
Fixpoint sliceFrom (n : nat) (s : string) : option string :=
  match n, s with
  | O, _ => Some s
  | S _, EmptyString => None
  | S n', String _ s' => sliceFrom n' s'
  end.

(** [jwt.MapClaims] is [map[string]interface{}]; indexing an absent key
    gives the nil interface. *)
Abbreviation MapClaims := (gmap string any).

Definition index (claims : MapClaims) (k : string) : any :=
  default AnyNil (claims !! k).

(** The type assertions [v.(string)] and [v.([]string)] in their
    one-result form: they panic ([None]) on any other dynamic type. *)
Definition assertString (v : any) : option string :=
  match v with AnyString s => Some s | _ => None end.

Definition assertStrings (v : any) : option (list string) :=
  match v with AnyStrings l => Some l | _ => None end.

(** The [JWTValidator] interface: [Validate(token)] returns the claims or
    an error (rendered by its message). The validator of [pkg/auth] is one
    implementation; it delegates to the JWT library and is represented by
    the interface. *)
Class JWTValidator (V : Type) := Validate : V -> string -> MapClaims + string.

(** A [*zap.Logger]: nil, or a logger. *)
Inductive Logger := nilLogger | zapLogger.

(** A call of [logger.Warn] or [logger.Info] after the events [evs],
    followed by [next]: the methods of [*zap.Logger] dereference their
    receiver, so the call panics on a nil logger; a logger writes its
    record, which takes no part in the reply. *)
Definition logging (logger : Logger) (evs : list Event) (next : Reply) : Reply :=
  match logger with
  | nilLogger => {| events := evs; outcome := Panicked "nil pointer dereference" |}
  | zapLogger => next
  end.

(** The interceptor returned by [AuthInterceptor(logger, jwtValidator)],
    applied to a call of [FullMethod] with context [ctx]. *)
Definition AuthInterceptor {V} `{JWTValidator V} (logger : Logger) (jwtValidator : V)
    (ctx : Context) (FullMethod : string) : Reply :=
  match FromIncomingContext ctx with
  | None =>
      logging logger []
        {| events := []; outcome := Failed (Error Unauthenticated "missing metadata") |}
  | Some md =>
      match MD_Get md "authorization" with
      | [] =>
          logging logger []
            {| events := [];
               outcome := Failed (Error Unauthenticated "missing authorization header") |}
      | token :: _ =>
          if negb (HasPrefix token "Bearer") then
            {| events := [];
               outcome := Failed (Error Unauthenticated "invalid authorization format") |}
          else
            match sliceFrom 7 token with
            | None => {| events := []; outcome := Panicked "slice bounds out of range" |}
            | Some token =>
                match Validate jwtValidator token with
                | inr err =>
                    logging logger [Validated token]
                      {| events := [Validated token];
                         outcome := Failed (Error Unauthenticated
                                              ("invalid token: " +:+ err)) |}
                | inl claims =>
                    let panic :=
                      {| events := [Validated token];
                         outcome := Panicked "interface conversion" |} in
                    match assertString (index claims "sub") with
                    | None => panic
                    | Some sub =>
                        let ctx := WithValue ctx "user_id" (AnyString sub) in
                        match assertStrings (index claims "roles") with
                        | None => panic
                        | Some roles =>
                            let ctx := WithValue ctx "roles" (AnyStrings roles) in
                            match assertStrings (index claims "permissions") with
                            | None => panic
                            | Some permissions =>
                                let ctx := WithValue ctx "permissions" (AnyStrings permissions) in
                                logging logger [Validated token]
                                  {| events := [Validated token; HandlerCalled];
                                     outcome := Handled ctx |}
                            end
                        end
                    end
                end
            end
      end
  end.

(** A validator given by a table from tokens to claims, as a test double
    would be: a token outside the table is refused. *)
Record tableValidator := { accepted : gmap string MapClaims }.

#[global] Instance tableValidator_JWTValidator : JWTValidator tableValidator :=
  fun v token =>
    match accepted v !! token with
    | Some claims => inl claims
    | None => inr "token is malformed"
    end.

(** A context whose incoming metadata carries one [authorization] value. *)
Definition ctxAuth (authorization : string) : Context :=
  {| incoming := Some {[ "authorization" := [authorization] ]}; values := [] |}.

(** The claims of a subject with the given roles and permissions. *)
Definition claimsOf (sub : string) (roles permissions : list string) : MapClaims :=
  {[ "sub" := AnyString sub; "roles" := AnyStrings roles;
     "permissions" := AnyStrings permissions ]}.

(** ** Scenarios and test doubles *)

(** The registry of the end-to-end scenario: a roomy global limiter, no
    method limiter, and a per-user template of 1 token per second with
    burst 1. *)
Definition perUserRegistry : MethodRateLimiterInterceptor :=
  SetPerUserLimit 1 1 (NewMethodRateLimiterInterceptor 100 100).

(** A registry whose table holds "u1", last used at instant 0, and "u2",
    last used after 10 minutes. *)
Definition sweptRegistry : MethodRateLimiterInterceptor :=
  with_perUserLimiters
    {[ "u1" := {| limiter := rate.NewLimiter 1 1; lastUsed := 0 |};
       "u2" := {| limiter := rate.NewLimiter 1 1; lastUsed := 10 * Minute |} ]}
    perUserRegistry.

(** A registry whose global limiter has no token at all, and one whose
    limiter for the method "/exchange.Orders/Get" has none. *)
Definition globallyExhausted : MethodRateLimiterInterceptor :=
  SetPerUserLimit 1 1 (NewMethodRateLimiterInterceptor 1 0).

Definition methodExhausted : MethodRateLimiterInterceptor :=
  SetMethodLimit "/exchange.Orders/Get" 1 0 perUserRegistry.

(** The registry of the end-to-end scenario of the global tier: 2 tokens
    per second, burst 2, no method limiter, no per-user limit. *)
Definition globalRegistry : MethodRateLimiterInterceptor :=
  NewMethodRateLimiterInterceptor 2 2.

(** A validator that accepts the token "abc" of subject "u1", the token
    "nosub" whose claims have no subject, and the token "json" whose roles
    are a decoded JSON array. *)
Definition testValidator : tableValidator :=
  {| accepted :=
       {[ "abc" := claimsOf "u1" ["trader"] ["orders:read"];
          "nosub" := {[ "roles" := AnyStrings []; "permissions" := AnyStrings [] ]};
          "json" := {[ "sub" := AnyString "u1"; "roles" := AnyOther;
                       "permissions" := AnyOther ]} ]} |}.

(** The identity an event of the per-user tier is about. *)
Definition identityOf (e : Event) : option string :=
  match e with
  | Allowed (UserLimiter userID) _ | NewUserLimiter userID => Some userID
  | _ => None
  end.

(** A call authenticated by the token "abc" of subject "u1" whose
    metadata also says [user_id: u2]. *)
Definition ctxOther : Context :=
  {| incoming := Some {[ "authorization" := ["Bearer abc"]; "user_id" := ["u2"] ]};
     values := [] |}.

(** The failures named by the specification. *)
Inductive Failure :=
| MissingMetadata | MissingCredential | MalformedCredential | InvalidToken
| MissingIdentity
| GlobalRateLimitExceeded | MethodRateLimitExceeded | CallerRateLimitExceeded.

(** The failure table of the specification: the status category of each
    failure. *)
Definition category (f : Failure) : Code :=
  match f with
  | MissingMetadata | MissingCredential | MalformedCredential | InvalidToken =>
      Unauthenticated
  | MissingIdentity => InvalidArgument
  | GlobalRateLimitExceeded | MethodRateLimitExceeded | CallerRateLimitExceeded =>
      ResourceExhausted
  end.

(** A reply that fails with the category of [f], after the events [evs]. *)
Definition fails (f : Failure) (msg : string) (evs : list Event) : Reply :=
  {| events := evs; outcome := Failed (Error (category f) msg) |}.

(** A context without incoming metadata. *)
Definition ctxBare : Context := {| incoming := None; values := [] |}.

(** ** [pkg/interceptors]: the single-limiter interceptor and the life of a registry *)

(** The interceptor returned by [RateLimiterInterceptor(limiter)], applied
    to a call with context [ctx] at instant [now]: the outcome and the
    limiter after the call. *)
Definition RateLimiterInterceptor (now : Z) (ctx : Context) (limiter : rate.Limiter)
  : Outcome * rate.Limiter :=
  let '(ok, l) := rate.Allow now limiter in
  if negb ok then (Failed (Error ResourceExhausted "rate limit exceeded"), l)
  else (Handled ctx, l).

(** [n] calls through [RateLimiterInterceptor] at the same instant. *)
Fixpoint serveAt (now : Z) (ctx : Context) (n : nat) (limiter : rate.Limiter)
  : list Outcome * rate.Limiter :=
  match n with
  | O => ([], limiter)
  | S n' =>
      let '(o, l) := RateLimiterInterceptor now ctx limiter in
      let '(os, l') := serveAt now ctx n' l in
      (o :: os, l')
  end.

(** The states a [MethodRateLimiterInterceptor] can be in: its fields are
    unexported, so it is built by [NewMethodRateLimiterInterceptor] and
    changed only by [SetMethodLimit], [SetPerUserLimit], the calls served
    by [Interceptor] and the ticks of [cleanupOldUsers]. *)
Inductive reachable : MethodRateLimiterInterceptor -> Prop :=
| reachable_new defaultLimit defaultBurst :
    reachable (NewMethodRateLimiterInterceptor defaultLimit defaultBurst)
| reachable_method method limit burst m :
    reachable m -> reachable (SetMethodLimit method limit burst m)
| reachable_user limit burst m :
    reachable m -> reachable (SetPerUserLimit limit burst m)
| reachable_call now ctx FullMethod m :
    reachable m -> reachable (Interceptor now ctx FullMethod m).2
| reachable_tick now m :
    reachable m -> reachable (cleanupTick now m).

(** [m'] has the settings of [m]: the per-user template, the periods of
    the sweep, and the rate and burst of the default limiter. *)
Definition sameSettings (m m' : MethodRateLimiterInterceptor) : Prop :=
  perUserRate m' = perUserRate m /\ perUserBurst m' = perUserBurst m
  /\ cleanupInterval m' = cleanupInterval m /\ maxAge m' = maxAge m
  /\ rate.limit (defaultLimiter m') = rate.limit (defaultLimiter m)
  /\ rate.burst (defaultLimiter m') = rate.burst (defaultLimiter m).

(** ** [pkg/auth]: the validator built on the JWT library *)

Module auth.

(** What [jwt.ParseWithClaims] hands back: an error, or a token with its
    claims and its [Valid] flag. The claims are the [*jwt.MapClaims] that
    was passed in, or a value of another type. *)
Inductive Claims :=
| MapClaimsPtr (claims : MapClaims)
| OtherClaims.

Record Token := { TokenClaims : Claims; Valid : bool }.

Inductive ParseResult :=
| ParseError (err : string)
| Parsed (token : Token).

(** [jwt.ErrSignatureInvalid], by its message. *)
Definition ErrSignatureInvalid : string := "signature is invalid".

(** [auth.JWTValidator]: the secret, and whether a logger was given (the
    logger may be nil). *)
Record JWTValidator := { secret : string; logger : bool }.

Definition NewJWTValidator (secret : string) (logger : bool) : JWTValidator :=
  {| secret := secret; logger := logger |}.

(** [v.Validate(tokenString)], given the parser of the JWT library as a
    function of the key that the key function returns and of the token
    string: the result and the warnings logged. *)
Definition Validate (ParseWithClaims : string -> string -> ParseResult)
    (v : JWTValidator) (tokenString : string) : (MapClaims + string) * list string :=
  match ParseWithClaims (secret v) tokenString with
  | ParseError err =>
      (inr err, if logger v then ["JWT validation failed"] else [])
  | Parsed token =>
      match TokenClaims token with
      | MapClaimsPtr claims =>
          if negb (Valid token) then (inr ErrSignatureInvalid, [])
          else (inl claims, [])
      | OtherClaims => (inr ErrSignatureInvalid, [])
      end
  end.

End auth.

(** [auth.JWTValidator] implements the interface that [AuthInterceptor]
    takes. *)
Definition authValidator (ParseWithClaims : string -> string -> auth.ParseResult)
  : JWTValidator auth.JWTValidator :=
  fun v token => (auth.Validate ParseWithClaims v token).1.

(** What the JWT library decodes claims into: it unmarshals the JSON
    payload into a [map[string]interface{}], where a JSON array becomes a
    [[]interface{}], so no value has the dynamic type [[]string]. *)
Definition jsonDecoded (claims : MapClaims) : Prop :=
  forall k l, index claims k <> AnyStrings l.

Definition decodesJSON (ParseWithClaims : string -> string -> auth.ParseResult) : Prop :=
  forall key tokenString token claims,
    ParseWithClaims key tokenString = auth.Parsed token ->
    auth.TokenClaims token = auth.MapClaimsPtr claims ->
    jsonDecoded claims.

(** A parser that accepts the token "good", of subject "u1" with its
    roles and permissions as decoded JSON arrays, and refuses every other
    token. *)
Definition jsonParser (key tokenString : string) : auth.ParseResult :=
  if String.eqb tokenString "good" then
    auth.Parsed
      {| auth.TokenClaims :=
           auth.MapClaimsPtr
             {[ "sub" := AnyString "u1"; "roles" := AnyOther;
                "permissions" := AnyOther ]};
         auth.Valid := true |}
  else auth.ParseError "token is malformed".

(** * Properties *)

(** ** The token bucket *)

Lemma Allow_refused now lim :
  (rate.Allow now lim).1 = false -> (rate.Allow now lim).2 = lim.
Proof.
  unfold rate.Allow. destruct (rate.Second <=? rate.advance now lim); [discriminate | reflexivity].
Qed.

Lemma Allow_verdict now lim :
  (rate.Allow now lim).1 = true <-> rate.Second <= rate.advance now lim.
Proof.
  unfold rate.Allow.
  destruct (Z.leb_spec rate.Second (rate.advance now lim)); simpl; split; intros; (lia || congruence).
Qed.

(** A bucket that starts full holds [b] tokens at any later instant. *)
Lemma advance_NewLimiter now r b :
  0 <= r -> rate.advance now (rate.NewLimiter r b) = b * rate.Second.
Proof. unfold rate.advance, rate.NewLimiter; simpl. nia. Qed.

(** No refill between two calls at the same instant. *)
Lemma advance_same_instant now lim :
  rate.last lim = now -> rate.tokens lim <= rate.burst lim * rate.Second ->
  rate.advance now lim = rate.tokens lim.
Proof. unfold rate.advance. intros -> ?. rewrite Z.sub_diag. simpl. lia. Qed.

(** ** The state of the rate limiter *)

Lemma with_perUserLimiters_same m : with_perUserLimiters (perUserLimiters m) m = m.
Proof. by destruct m. Qed.

Lemma with_defaultLimiter_same m : with_defaultLimiter (defaultLimiter m) m = m.
Proof. by destruct m. Qed.

Lemma globalTier_refused now m :
  (globalTier now m).1 = false -> (globalTier now m).2 = m.
Proof.
  unfold globalTier. pose proof (Allow_refused now (defaultLimiter m)) as Hl.
  destruct (rate.Allow now (defaultLimiter m)) as [ok l]; simpl in *.
  intros ->. rewrite Hl by reflexivity. apply with_defaultLimiter_same.
Qed.

(** The method tier leaves the per-user table alone. *)
Lemma methodTier_perUserLimiters now FullMethod m :
  perUserLimiters (methodTier now FullMethod m).2 = perUserLimiters m.
Proof.
  unfold methodTier. destruct (methodLimiters m !! FullMethod) as [l|].
  - by destruct (rate.Allow now l).
  - by destruct (rate.Allow now (defaultLimiter m)).
Qed.

Lemma globalTier_perUserLimiters now m :
  perUserLimiters (globalTier now m).2 = perUserLimiters m.
Proof. unfold globalTier. by destruct (rate.Allow now (defaultLimiter m)). Qed.

(** The per-user tier never adds an identity to the table: an identity
    that has no entry before the call has none after it. *)
Lemma perUserTier_absent now userID m :
  perUserLimiters m !! userID = None ->
  perUserTier now userID m =
    ([NewUserLimiter userID;
      Allowed (UserLimiter userID)
        (rate.Allow now (rate.NewLimiter (perUserRate m) (perUserBurst m))).1],
     (rate.Allow now (rate.NewLimiter (perUserRate m) (perUserBurst m))).1, m).
Proof.
  intros Hno. unfold perUserTier. rewrite Hno. simpl.
  by destruct (rate.Allow now (rate.NewLimiter (perUserRate m) (perUserBurst m))).
Qed.

Lemma perUserTier_dom now userID m :
  dom (perUserLimiters (perUserTier now userID m).2) = dom (perUserLimiters m).
Proof.
  destruct (perUserLimiters m !! userID) as [user|] eqn:E.
  - unfold perUserTier. rewrite E.
    destruct (rate.Allow now (limiter user)) as [ok l]; simpl.
    rewrite dom_insert_L. apply elem_of_dom_2 in E.
    apply subseteq_union_1_L. by apply singleton_subseteq_l.
  - by rewrite perUserTier_absent.
Qed.

(** The sweep never changes the state: a non-empty scan skips the delete
    pass, an empty one deletes nothing. *)
Lemma cleanupTick_unchanged now m : cleanupTick now m = m.
Proof.
  unfold cleanupTick. destruct (staleUsers now m) as [|userID rest]; simpl.
  - apply with_perUserLimiters_same.
  - reflexivity.
Qed.

Lemma cleanupOldUsers_unchanged ticks m : cleanupOldUsers ticks m = m.
Proof.
  unfold cleanupOldUsers. induction ticks as [|now ticks IH]; simpl; [done|].
  by rewrite cleanupTick_unchanged.
Qed.

(** ** Creation of per-user entries (C1, C6) *)

(** No call of the interceptor adds an identity to the per-user table. *)
Lemma Interceptor_dom now ctx FullMethod m :
  dom (perUserLimiters (Interceptor now ctx FullMethod m).2) = dom (perUserLimiters m).
Proof.
  unfold Interceptor.
  pose proof (globalTier_perUserLimiters now m) as Hg.
  destruct (globalTier now m) as [ok1 m1]; simpl in Hg.
  destruct ok1; simpl; [|congruence].
  pose proof (methodTier_perUserLimiters now FullMethod m1) as Hm.
  destruct (methodTier now FullMethod m1) as [[r ok2] m2]; simpl in Hm.
  destruct ok2; simpl; [|congruence].
  destruct (0 <? perUserRate m2); simpl; [|congruence].
  destruct (String.eqb (common.GetUserID ctx) ""); simpl; [congruence|].
  pose proof (perUserTier_dom now (common.GetUserID ctx) m2) as Hu.
  destruct (perUserTier now (common.GetUserID ctx) m2) as [[evs ok3] m3]; simpl in Hu.
  destruct ok3; simpl; congruence.
Qed.

(** C1, evaluated on the code: the first call of identity "u1" allocates a
    limiter entry but stores none in the table, and the second call of
    "u1" allocates another one, so the two calls use two distinct limiter
    instances and the table still has no entry for "u1" afterwards. The
    claim asks for exactly one stored entry that later calls resolve
    to. *)
Theorem first_call_stores_no_entry :
  let '(replies, m) :=
    serve [(0, ctxOf "u1", "/exchange.Orders/Get");
           (0, ctxOf "u1", "/exchange.Orders/Get")] perUserRegistry in
  map events replies =
    [[Allowed DefaultLimiter true; Allowed DefaultLimiter true;
      NewUserLimiter "u1"; Allowed (UserLimiter "u1") true; HandlerCalled];
     [Allowed DefaultLimiter true; Allowed DefaultLimiter true;
      NewUserLimiter "u1"; Allowed (UserLimiter "u1") true; HandlerCalled]]
  /\ perUserLimiters m !! "u1" = None
  /\ perUserLimiters m = ∅.
Proof. vm_compute. repeat split; reflexivity. Qed.

(** C6, evaluated on the code: with the per-user template at 1 token per
    second and burst 1, the calls of "u1", "u2" and "u1" again at one
    instant are all three admitted; the claim has the second call of "u1"
    refused with ResourceExhausted. *)
Theorem second_call_of_u1_admitted :
  map outcome
    (serve [(0, ctxOf "u1", "/exchange.Orders/Get");
            (0, ctxOf "u2", "/exchange.Orders/Get");
            (0, ctxOf "u1", "/exchange.Orders/Get")] perUserRegistry).1
  = [Handled (ctxOf "u1"); Handled (ctxOf "u2"); Handled (ctxOf "u1")].
Proof. vm_compute. reflexivity. Qed.

(** ** The eviction sweep (C2) *)

(** C2, evaluated on the code: at a tick 16 minutes after "u1" was last
    used, with [maxAge] at 15 minutes, the scan finds exactly "u1" stale,
    and "u1" is still in the table after the tick; the claim has it
    removed. *)
Theorem stale_entry_survives_tick :
  maxAge sweptRegistry = 15 * Minute
  /\ staleUsers (16 * Minute) sweptRegistry = ["u1"]
  /\ perUserLimiters (cleanupTick (16 * Minute) sweptRegistry) !! "u1"
     = Some {| limiter := rate.NewLimiter 1 1; lastUsed := 0 |}.
Proof. vm_compute. repeat split; reflexivity. Qed.

(** ** Order of the tiers and short-circuit (C3) *)

(** C3. A call refused at the global tier consults no other limiter and
    leaves the whole state as it was: no method limiter and no per-user
    limiter loses a token, so their later [Allow] budgets are unchanged. A
    call refused at the method tier has consulted the global limiter and
    the limiter of the method tier only: no per-user limiter is allocated
    or consulted, and the per-user table is as it was. *)
Theorem rejection_short_circuits now ctx FullMethod m :
  let res := Interceptor now ctx FullMethod m in
  (outcome res.1 = Failed (Error ResourceExhausted "global rate limit exceeded") ->
     events res.1 = [Allowed DefaultLimiter false] /\ res.2 = m)
  /\
  (outcome res.1 = Failed (Error ResourceExhausted "method rate limit exceeded") ->
     (events res.1 = [Allowed DefaultLimiter true; Allowed DefaultLimiter false]
      \/ events res.1 = [Allowed DefaultLimiter true; Allowed (MethodLimiter FullMethod) false])
     /\ perUserLimiters res.2 = perUserLimiters m).
Proof.
  unfold Interceptor.
  pose proof (globalTier_refused now m) as Hg.
  pose proof (globalTier_perUserLimiters now m) as Hgu.
  destruct (globalTier now m) as [ok1 m1]; simpl in Hg, Hgu.
  destruct ok1; simpl.
  2: { split; [intros _; split; [reflexivity | by apply Hg] | discriminate]. }
  pose proof (methodTier_perUserLimiters now FullMethod m1) as Hmu.
  assert (Hr : (methodTier now FullMethod m1).1.1 = DefaultLimiter
               \/ (methodTier now FullMethod m1).1.1 = MethodLimiter FullMethod).
  { unfold methodTier. destruct (methodLimiters m1 !! FullMethod) as [l|].
    - right. by destruct (rate.Allow now l).
    - left. by destruct (rate.Allow now (defaultLimiter m1)). }
  destruct (methodTier now FullMethod m1) as [[r ok2] m2]; simpl in Hmu, Hr.
  destruct ok2; simpl.
  2: { split; [discriminate | intros _; split; [|congruence]].
       destruct Hr as [-> | ->]; auto. }
  destruct (0 <? perUserRate m2); simpl; [|split; discriminate].
  destruct (String.eqb (common.GetUserID ctx) ""); simpl; [split; discriminate|].
  destruct (perUserTier now (common.GetUserID ctx) m2) as [[evs ok3] m3].
  destruct ok3; simpl; split; discriminate.
Qed.

Lemma rejection_short_circuits_witness :
  let global := Interceptor 0 (ctxOf "u1") "/exchange.Orders/Get" globallyExhausted in
  let method := Interceptor 0 (ctxOf "u1") "/exchange.Orders/Get" methodExhausted in
  (outcome global.1 = Failed (Error ResourceExhausted "global rate limit exceeded")
   /\ global.2 = globallyExhausted)
  /\ (outcome method.1 = Failed (Error ResourceExhausted "method rate limit exceeded")
      /\ perUserLimiters method.2 = perUserLimiters methodExhausted).
Proof.
  assert (Hg : outcome (Interceptor 0 (ctxOf "u1") "/exchange.Orders/Get" globallyExhausted).1
               = Failed (Error ResourceExhausted "global rate limit exceeded"))
    by (vm_compute; reflexivity).
  assert (Hm : outcome (Interceptor 0 (ctxOf "u1") "/exchange.Orders/Get" methodExhausted).1
               = Failed (Error ResourceExhausted "method rate limit exceeded"))
    by (vm_compute; reflexivity).
  split; (split; [assumption|]).
  - exact (proj2 (proj1 (rejection_short_circuits 0 (ctxOf "u1") "/exchange.Orders/Get"
                           globallyExhausted) Hg)).
  - exact (proj2 (proj2 (rejection_short_circuits 0 (ctxOf "u1") "/exchange.Orders/Get"
                           methodExhausted) Hm)).
Defined.

(** ** The limiter of the method tier (C8) *)

(** When the global tier admits the call, the second event of the call is
    the verdict of the method tier, and the limiters left by the call are
    those left by the method tier: the per-user tier touches neither. *)
Lemma Interceptor_method_tier now ctx FullMethod m :
  (globalTier now m).1 = true ->
  let mt := methodTier now FullMethod (globalTier now m).2 in
  let res := Interceptor now ctx FullMethod m in
  events res.1 !! 1%nat = Some (Allowed mt.1.1 mt.1.2)
  /\ defaultLimiter res.2 = defaultLimiter mt.2
  /\ methodLimiters res.2 = methodLimiters mt.2.
Proof.
  unfold Interceptor. destruct (globalTier now m) as [ok1 m1]; simpl. intros ->; simpl.
  destruct (methodTier now FullMethod m1) as [[r ok2] m2]; simpl.
  destruct ok2; simpl; [|done].
  destruct (0 <? perUserRate m2); simpl; [|done].
  destruct (String.eqb (common.GetUserID ctx) ""); simpl; [done|].
  destruct (perUserLimiters m2 !! common.GetUserID ctx) as [user|] eqn:E.
  - unfold perUserTier. rewrite E.
    destruct (rate.Allow now (limiter user)) as [ok3 l3]; simpl.
    destruct ok3; simpl; repeat split; reflexivity.
  - rewrite (perUserTier_absent _ _ _ E).
    destruct (rate.Allow now (rate.NewLimiter (perUserRate m2) (perUserBurst m2))).1;
      simpl; repeat split; reflexivity.
Qed.

(** C8. For a call that reaches the method tier (the global limiter admits
    it, leaving [d1]): if the method has no entry in the method table, the
    method-tier check is an [Allow] on the default limiter, which pays for
    it; if the method has the limiter [l], the check is an [Allow] on [l],
    which pays for it while the default limiter pays for the global tier
    only; and after [SetMethodLimit] for the method, the check is an
    [Allow] on the limiter just created for it. *)
Theorem method_tier_limiter now ctx FullMethod m :
  (rate.Allow now (defaultLimiter m)).1 = true ->
  let d1 := (rate.Allow now (defaultLimiter m)).2 in
  let res := Interceptor now ctx FullMethod m in
  (methodLimiters m !! FullMethod = None ->
     events res.1 !! 1%nat = Some (Allowed DefaultLimiter (rate.Allow now d1).1)
     /\ defaultLimiter res.2 = (rate.Allow now d1).2
     /\ methodLimiters res.2 = methodLimiters m)
  /\
  (forall l, methodLimiters m !! FullMethod = Some l ->
     events res.1 !! 1%nat = Some (Allowed (MethodLimiter FullMethod) (rate.Allow now l).1)
     /\ defaultLimiter res.2 = d1
     /\ methodLimiters res.2 = <[FullMethod := (rate.Allow now l).2]> (methodLimiters m))
  /\
  (forall limit burst,
     let set := SetMethodLimit FullMethod limit burst m in
     methodLimiters set !! FullMethod = Some (rate.NewLimiter limit burst)
     /\ events (Interceptor now ctx FullMethod set).1 !! 1%nat
        = Some (Allowed (MethodLimiter FullMethod)
                  (rate.Allow now (rate.NewLimiter limit burst)).1)).
Proof.
  intros Hglobal.
  assert (Hg : forall m', defaultLimiter m' = defaultLimiter m ->
             (globalTier now m').1 = true
             /\ defaultLimiter (globalTier now m').2 = (rate.Allow now (defaultLimiter m)).2
             /\ methodLimiters (globalTier now m').2 = methodLimiters m').
  { intros m' Hd. unfold globalTier. rewrite Hd.
    destruct (rate.Allow now (defaultLimiter m)) as [ok l]; simpl in *. by subst ok. }
  assert (Hsome : forall m' l, defaultLimiter m' = defaultLimiter m ->
             methodLimiters m' !! FullMethod = Some l ->
             let res := Interceptor now ctx FullMethod m' in
             events res.1 !! 1%nat = Some (Allowed (MethodLimiter FullMethod) (rate.Allow now l).1)
             /\ defaultLimiter res.2 = (rate.Allow now (defaultLimiter m)).2
             /\ methodLimiters res.2 = <[FullMethod := (rate.Allow now l).2]> (methodLimiters m')).
  { intros m' l Hd Hl. destruct (Hg m' Hd) as (Hok & Hd1 & Hm1).
    destruct (Interceptor_method_tier now ctx FullMethod m' Hok) as (He & Hdr & Hmr).
    simpl. rewrite He, Hdr, Hmr. unfold methodTier. rewrite Hm1, Hl.
    destruct (rate.Allow now l) as [ok2 l2]; simpl. by rewrite ?Hd1, ?Hm1. }
  simpl. split; [|split].
  - intros Hnone. destruct (Hg m eq_refl) as (Hok & Hd1 & Hm1).
    destruct (Interceptor_method_tier now ctx FullMethod m Hok) as (He & Hdr & Hmr).
    rewrite He, Hdr, Hmr. unfold methodTier. rewrite Hm1, Hnone, Hd1.
    destruct (rate.Allow now (rate.Allow now (defaultLimiter m)).2) as [ok2 l2]; simpl.
    by rewrite ?Hm1.
  - intros l Hl. by apply Hsome.
  - intros limit burst.
    assert (Hl : methodLimiters (SetMethodLimit FullMethod limit burst m) !! FullMethod
                 = Some (rate.NewLimiter limit burst)) by apply lookup_insert_eq.
    split; [exact Hl|].
    by destruct (Hsome (SetMethodLimit FullMethod limit burst m) _ eq_refl Hl) as (He & _).
Qed.

Lemma method_tier_limiter_witness :
  (rate.Allow 0 (defaultLimiter perUserRegistry)).1 = true
  /\ events (Interceptor 0 (ctxOf "u1") "/exchange.Orders/Get" perUserRegistry).1 !! 1%nat
     = Some (Allowed DefaultLimiter true)
  /\ events (Interceptor 0 (ctxOf "u1") "/exchange.Orders/Get" methodExhausted).1 !! 1%nat
     = Some (Allowed (MethodLimiter "/exchange.Orders/Get") false).
Proof.
  assert (Hg : (rate.Allow 0 (defaultLimiter perUserRegistry)).1 = true)
    by (vm_compute; reflexivity).
  split; [exact Hg|]. split.
  - exact (proj1 (proj1 (method_tier_limiter 0 (ctxOf "u1") "/exchange.Orders/Get"
                           perUserRegistry Hg) eq_refl)).
  - exact (proj2 (proj2 (proj2 (method_tier_limiter 0 (ctxOf "u1") "/exchange.Orders/Get"
                           perUserRegistry Hg)) 1 0)).
Defined.

(** ** The global budget when the method tier falls back (C7) *)

Lemma Allow_NewLimiter now r b :
  0 <= r -> 1 <= b ->
  rate.Allow now (rate.NewLimiter r b)
  = (true, {| rate.limit := r; rate.burst := b;
              rate.tokens := b * rate.Second - rate.Second; rate.last := now |}).
Proof.
  intros Hr Hb. unfold rate.Allow. rewrite advance_NewLimiter by assumption.
  destruct (Z.leb_spec rate.Second (b * rate.Second)) as [_|Hlt]; [reflexivity|].
  unfold rate.Second in Hlt. lia.
Qed.

Lemma Allow_same_instant now lim :
  rate.last lim = now -> rate.tokens lim <= rate.burst lim * rate.Second ->
  rate.Allow now lim
  = if rate.Second <=? rate.tokens lim
    then (true, {| rate.limit := rate.limit lim; rate.burst := rate.burst lim;
                   rate.tokens := rate.tokens lim - rate.Second; rate.last := now |})
    else (false, lim).
Proof.
  intros Hlast Hcap. unfold rate.Allow. by rewrite advance_same_instant.
Qed.

(** A call the global limiter refuses: nothing else happens. *)
Lemma Interceptor_global_refused now ctx FullMethod m :
  (rate.Allow now (defaultLimiter m)).1 = false ->
  Interceptor now ctx FullMethod m
  = ({| events := [Allowed DefaultLimiter false];
        outcome := Failed (Error ResourceExhausted "global rate limit exceeded") |}, m).
Proof.
  intros Hno. unfold Interceptor.
  pose proof (globalTier_refused now m) as Hsame.
  unfold globalTier in *.
  destruct (rate.Allow now (defaultLimiter m)) as [ok l]; simpl in *. subst ok.
  simpl. by rewrite Hsame.
Qed.

(** A call of a method without limiter of its own, with no per-user
    limit: when the default limiter admits it twice in a row, the call is
    admitted and the default limiter has paid twice. *)
Lemma Interceptor_fallback_admitted now ctx FullMethod m l1 l2 :
  methodLimiters m !! FullMethod = None -> perUserRate m = 0 ->
  rate.Allow now (defaultLimiter m) = (true, l1) ->
  rate.Allow now l1 = (true, l2) ->
  Interceptor now ctx FullMethod m
  = ({| events := [Allowed DefaultLimiter true; Allowed DefaultLimiter true; HandlerCalled];
        outcome := Handled ctx |}, with_defaultLimiter l2 m).
Proof.
  intros Hnone Hrate H1 H2. unfold Interceptor, globalTier, methodTier.
  rewrite H1. cbn [negb with_defaultLimiter methodLimiters defaultLimiter].
  rewrite Hnone, H2. cbn [negb with_defaultLimiter perUserRate]. by rewrite Hrate.
Qed.

(** C7 as stated fails: of three calls at one instant on [globalRegistry],
    the second is already refused, so the outcomes are not "admitted,
    admitted, refused with ResourceExhausted". *)
Lemma second_of_three_refused :
  ~ (exists st,
       map outcome
         (serve [(0, ctxOf "u1", "/exchange.Orders/Get");
                 (0, ctxOf "u1", "/exchange.Orders/Get");
                 (0, ctxOf "u1", "/exchange.Orders/Get")] globalRegistry).1
       = [Handled (ctxOf "u1"); Handled (ctxOf "u1"); Failed st]
       /\ code st = ResourceExhausted).
Proof. vm_compute. intros (st & Hout & _). discriminate Hout. Qed.

(** C7, amended. With the global limiter at 2 tokens per second and burst
    2 and no limiter for the called method, the method tier falls back to
    the same default limiter, so an admitted call takes two tokens from
    it: of three calls at one instant, whatever the instant, the context
    and the method, the first is admitted and left without a token in the
    default limiter, and the second and the third are refused with
    ResourceExhausted at the global tier. *)
Theorem global_burst_two_admits_one now ctx FullMethod :
  let res := serve [(now, ctx, FullMethod); (now, ctx, FullMethod);
                    (now, ctx, FullMethod)] globalRegistry in
  map outcome res.1
  = [Handled ctx;
     Failed (Error ResourceExhausted "global rate limit exceeded");
     Failed (Error ResourceExhausted "global rate limit exceeded")]
  /\ map events res.1
  = [[Allowed DefaultLimiter true; Allowed DefaultLimiter true; HandlerCalled];
     [Allowed DefaultLimiter false];
     [Allowed DefaultLimiter false]]
  /\ code (Error ResourceExhausted "global rate limit exceeded") = ResourceExhausted
  /\ rate.tokens (defaultLimiter res.2) = 0.
Proof.
  set (bucket t := {| rate.limit := 2; rate.burst := 2; rate.tokens := t;
                       rate.last := now |}).
  assert (H1 : rate.Allow now (rate.NewLimiter 2 2) = (true, bucket rate.Second))
    by (by rewrite Allow_NewLimiter by lia).
  assert (H2 : rate.Allow now (bucket rate.Second) = (true, bucket 0))
    by (by rewrite Allow_same_instant by (unfold bucket, rate.Second; cbn; lia)).
  assert (H3 : rate.Allow now (bucket 0) = (false, bucket 0))
    by (by rewrite Allow_same_instant by (unfold bucket, rate.Second; cbn; lia)).
  unfold serve.
  rewrite (Interceptor_fallback_admitted now ctx FullMethod globalRegistry _ _
             (lookup_empty _) eq_refl H1 H2).
  rewrite !Interceptor_global_refused by (cbn [with_defaultLimiter defaultLimiter]; by rewrite H3).
  repeat split; reflexivity.
Qed.

(** ** The bearer scheme (C4, C10) *)

Lemma HasPrefix_spec s prefix :
  HasPrefix s prefix = true <-> exists rest, s = prefix +:+ rest.
Proof.
  revert s. induction prefix as [|p prefix IH]; intros s; simpl.
  - split; [intros _; exists s; reflexivity | reflexivity].
  - destruct s as [|c s]; simpl.
    + split; [done | intros [rest Hrest]; discriminate].
    + rewrite andb_true_iff, IH. split.
      * intros [Hc [rest ->]]. apply Ascii.eqb_eq in Hc as ->. by exists rest.
      * intros [rest Hrest]. injection Hrest as -> ->.
        split; [apply Ascii.eqb_refl | by exists rest].
Qed.

Lemma sliceFrom_prefix prefix rest :
  sliceFrom (String.length prefix) (prefix +:+ rest) = Some rest.
Proof. induction prefix as [|p prefix IH]; simpl; [by destruct rest | exact IH]. Qed.

Lemma MD_Get_ctxAuth authorization :
  MD_Get {[ "authorization" := [authorization] ]} "authorization" = [authorization].
Proof. unfold MD_Get. by rewrite lookup_singleton_eq. Qed.

(** What [AuthInterceptor] does once the first [authorization] value is
    known. *)
Lemma AuthInterceptor_token {V} `{JWTValidator V} (logger : Logger) (v : V)
    ctx FullMethod md token rest :
  incoming ctx = Some md -> MD_Get md "authorization" = token :: rest ->
  AuthInterceptor logger v ctx FullMethod
  = if negb (HasPrefix token "Bearer") then
      {| events := [];
         outcome := Failed (Error Unauthenticated "invalid authorization format") |}
    else
      match sliceFrom 7 token with
      | None => {| events := []; outcome := Panicked "slice bounds out of range" |}
      | Some token =>
          match Validate v token with
          | inr err =>
              logging logger [Validated token]
                {| events := [Validated token];
                   outcome := Failed (Error Unauthenticated ("invalid token: " +:+ err)) |}
          | inl claims =>
              let panic :=
                {| events := [Validated token];
                   outcome := Panicked "interface conversion" |} in
              match assertString (index claims "sub"),
                    assertStrings (index claims "roles"),
                    assertStrings (index claims "permissions") with
              | Some sub, Some roles, Some permissions =>
                  logging logger [Validated token]
                    {| events := [Validated token; HandlerCalled];
                       outcome :=
                         Handled
                           (WithValue
                              (WithValue (WithValue ctx "user_id" (AnyString sub))
                                 "roles" (AnyStrings roles))
                              "permissions" (AnyStrings permissions)) |}
              | _, _, _ => panic
              end
          end
      end.
Proof.
  intros Hmd Hget. unfold AuthInterceptor, FromIncomingContext. rewrite Hmd, Hget.
  destruct (negb (HasPrefix token "Bearer")); [reflexivity|].
  destruct (sliceFrom 7 token) as [t|]; [|reflexivity].
  destruct (Validate v t) as [claims|err]; [|reflexivity].
  destruct (assertString (index claims "sub")); [|reflexivity].
  destruct (assertStrings (index claims "roles")); [|reflexivity].
  destruct (assertStrings (index claims "permissions")); reflexivity.
Qed.

(** The half of C4 that holds: a value that starts with "Bearer " reaches
    the validator without exactly these seven bytes. *)
Lemma Bearer_space_stripped {V} `{JWTValidator V} (logger : Logger) (v : V)
    FullMethod token :
  HasPrefix token "Bearer " = true ->
  exists rest, token = "Bearer " +:+ rest
    /\ hd_error (events (AuthInterceptor logger v (ctxAuth token) FullMethod))
       = Some (Validated rest).
Proof.
  intros [rest ->]%HasPrefix_spec. exists rest. split; [reflexivity|].
  rewrite (AuthInterceptor_token logger v (ctxAuth _) _ _ _ [] eq_refl (MD_Get_ctxAuth _)).
  change (sliceFrom 7 ("Bearer " +:+ rest)) with
    (sliceFrom (String.length "Bearer ") ("Bearer " +:+ rest)).
  rewrite sliceFrom_prefix. simpl.
  destruct (Validate v rest) as [claims|err]; [|by destruct logger].
  destruct (assertString (index claims "sub")); [|reflexivity].
  destruct (assertStrings (index claims "roles")); [|reflexivity].
  destruct (assertStrings (index claims "permissions")); [|reflexivity].
  by destruct logger.
Qed.

(** C4, evaluated on the code: the value "BearerXabc" does not start with
    "Bearer ", yet it passes the check of the scheme, whatever the
    validator and the logger; the validator is invoked on "abc", and with
    a validator that accepts "abc" (and a logger) the call is
    authenticated. The claim has the call refused as Unauthenticated
    without the validator being invoked. *)
Theorem separator_not_checked {V} `{JWTValidator V} (logger : Logger) (v : V) FullMethod :
  HasPrefix "BearerXabc" "Bearer " = false
  /\ hd_error (events (AuthInterceptor logger v (ctxAuth "BearerXabc") FullMethod))
     = Some (Validated "abc")
  /\ events (AuthInterceptor zapLogger testValidator (ctxAuth "BearerXabc") FullMethod)
     = [Validated "abc"; HandlerCalled].
Proof.
  split; [reflexivity|]. split.
  - rewrite (AuthInterceptor_token logger v (ctxAuth _) _ _ _ [] eq_refl (MD_Get_ctxAuth _)).
    simpl.
    destruct (Validate v "abc") as [claims|err]; [|by destruct logger].
    destruct (assertString (index claims "sub")); [|reflexivity].
    destruct (assertStrings (index claims "roles")); [|reflexivity].
    destruct (assertStrings (index claims "permissions")); [|reflexivity].
    by destruct logger.
  - vm_compute. reflexivity.
Qed.

(** C10, evaluated on the code: the value "Bearer" passes the check of the
    scheme and the slice [token[7:]] of its six bytes panics, whatever the
    validator and the logger; and a token the validator accepts makes the
    interceptor panic in a type assertion, with or without a logger, when
    its claims have no "sub", or have "roles" as a decoded JSON array
    rather than a []string. The claim has the interceptor return a result
    or an error on every call. *)
Theorem bare_scheme_panics {V} `{JWTValidator V} (logger : Logger) (v : V) FullMethod :
  AuthInterceptor logger v (ctxAuth "Bearer") FullMethod
  = {| events := []; outcome := Panicked "slice bounds out of range" |}
  /\ AuthInterceptor logger testValidator (ctxAuth "Bearer nosub") FullMethod
  = {| events := [Validated "nosub"]; outcome := Panicked "interface conversion" |}
  /\ AuthInterceptor logger testValidator (ctxAuth "Bearer json") FullMethod
  = {| events := [Validated "json"]; outcome := Panicked "interface conversion" |}.
Proof.
  split; [|split].
  - by rewrite (AuthInterceptor_token logger v (ctxAuth _) _ _ _ [] eq_refl (MD_Get_ctxAuth _)).
  - vm_compute. reflexivity.
  - vm_compute. reflexivity.
Qed.

(** ** The identity of the per-user tier (C5) *)

(** Every event of the per-user tier of a call is about the identity that
    [GetUserID] reads from the incoming metadata of the call. *)
Lemma Interceptor_identity now ctx FullMethod m :
  Forall (fun e => identityOf e = None \/ identityOf e = Some (common.GetUserID ctx))
         (events (Interceptor now ctx FullMethod m).1).
Proof.
  unfold Interceptor. destruct (globalTier now m) as [ok1 m1].
  assert (Hr : forall ok, identityOf (Allowed (methodTier now FullMethod m1).1.1 ok) = None).
  { intros ok. unfold methodTier. destruct (methodLimiters m1 !! FullMethod) as [l|].
    - by destruct (rate.Allow now l).
    - by destruct (rate.Allow now (defaultLimiter m1)). }
  destruct (methodTier now FullMethod m1) as [[r ok2] m2]; simpl in Hr.
  pose proof (Hr true) as Hrt. pose proof (Hr false) as Hrf.
  destruct ok1; simpl; [|by repeat (apply Forall_cons; split; [auto|])].
  destruct ok2; simpl; [|by repeat (apply Forall_cons; split; [auto|])].
  destruct (0 <? perUserRate m2); simpl;
    [|by repeat (apply Forall_cons; split; [auto|])].
  destruct (String.eqb (common.GetUserID ctx) ""); simpl;
    [by repeat (apply Forall_cons; split; [auto|])|].
  destruct (perUserLimiters m2 !! common.GetUserID ctx) as [user|] eqn:E.
  - unfold perUserTier. rewrite E.
    destruct (rate.Allow now (limiter user)) as [ok3 l3]; simpl.
    destruct ok3; simpl; by repeat (apply Forall_cons; split; [auto|]).
  - rewrite (perUserTier_absent _ _ _ E).
    destruct (rate.Allow now (rate.NewLimiter (perUserRate m2) (perUserBurst m2))).1;
      simpl; by repeat (apply Forall_cons; split; [auto|]).
Qed.

(** A call leaves the table entries of all other identities as they
    were. *)
Lemma Interceptor_other_users now ctx FullMethod m userID :
  userID <> common.GetUserID ctx ->
  perUserLimiters (Interceptor now ctx FullMethod m).2 !! userID
  = perUserLimiters m !! userID.
Proof.
  intros Hother. unfold Interceptor.
  pose proof (globalTier_perUserLimiters now m) as Hg.
  destruct (globalTier now m) as [ok1 m1]; simpl in Hg.
  destruct ok1; simpl; [|congruence].
  pose proof (methodTier_perUserLimiters now FullMethod m1) as Hm.
  destruct (methodTier now FullMethod m1) as [[r ok2] m2]; simpl in Hm.
  destruct ok2; simpl; [|congruence].
  destruct (0 <? perUserRate m2); simpl; [|congruence].
  destruct (String.eqb (common.GetUserID ctx) ""); simpl; [congruence|].
  assert (Hu : perUserLimiters (perUserTier now (common.GetUserID ctx) m2).2 !! userID
               = perUserLimiters m2 !! userID).
  { destruct (perUserLimiters m2 !! common.GetUserID ctx) as [user|] eqn:E.
    - unfold perUserTier. rewrite E.
      destruct (rate.Allow now (limiter user)) as [ok3 l3]; simpl.
      by rewrite lookup_insert_ne.
    - by rewrite (perUserTier_absent _ _ _ E). }
  destruct (perUserTier now (common.GetUserID ctx) m2) as [[evs ok3] m3]; simpl in Hu.
  destruct ok3; simpl; congruence.
Qed.

(** C5 as stated fails: the call of [ctxOther] is authenticated with
    subject "u1", which is injected under "user_id", and the admission
    stage, run on the context the auth stage passes on, takes "u2" for the
    identity of its per-user tier. *)
Lemma subject_is_not_the_identity :
  exists ctx',
    outcome (AuthInterceptor zapLogger testValidator ctxOther "/exchange.Orders/Get")
    = Handled ctx'
    /\ Value ctx' "user_id" = Some (AnyString "u1")
    /\ common.GetUserID ctx' = "u2"
    /\ common.GetUserID ctx' <> "u1"
    /\ events (Interceptor 0 ctx' "/exchange.Orders/Get" perUserRegistry).1
       = [Allowed DefaultLimiter true; Allowed DefaultLimiter true;
          NewUserLimiter "u2"; Allowed (UserLimiter "u2") true; HandlerCalled].
Proof.
  eexists. split; [vm_compute; reflexivity|].
  repeat split; try (vm_compute; reflexivity).
  vm_compute. discriminate.
Qed.

(** C5, amended. On a successful authentication the validated subject [s]
    is injected as the context value under "user_id", and the incoming
    metadata is passed on as the caller sent it. The admission stage reads
    the identity of its per-user tier from the first "user_id" entry of
    that incoming metadata (the empty identity when there is none), not
    from the injected value: every per-user event of the call is about
    that identity, and the table entries of all other identities are left
    as they were. *)
Theorem identity_from_metadata {V} `{JWTValidator V} (logger : Logger) (v : V)
    ctx FullMethod ctx' :
  outcome (AuthInterceptor logger v ctx FullMethod) = Handled ctx' ->
  (exists token claims s,
      events (AuthInterceptor logger v ctx FullMethod) = [Validated token; HandlerCalled]
      /\ Validate v token = inl claims
      /\ index claims "sub" = AnyString s
      /\ Value ctx' "user_id" = Some (AnyString s))
  /\ incoming ctx' = incoming ctx
  /\ common.GetUserID ctx' = common.GetUserID ctx
  /\ forall now m,
       Forall (fun e => identityOf e = None
                        \/ identityOf e = Some (common.GetUserID ctx))
              (events (Interceptor now ctx' FullMethod m).1)
       /\ forall userID, userID <> common.GetUserID ctx ->
            perUserLimiters (Interceptor now ctx' FullMethod m).2 !! userID
            = perUserLimiters m !! userID.
Proof.
  intros Hout.
  assert (Hshape : (exists token claims s,
      events (AuthInterceptor logger v ctx FullMethod) = [Validated token; HandlerCalled]
      /\ Validate v token = inl claims
      /\ index claims "sub" = AnyString s
      /\ Value ctx' "user_id" = Some (AnyString s))
      /\ incoming ctx' = incoming ctx).
  { unfold AuthInterceptor, FromIncomingContext in *.
    destruct (incoming ctx) as [md|] eqn:Emd; [|destruct logger; discriminate].
    destruct (MD_Get md "authorization") as [|token rest];
      [destruct logger; discriminate|].
    destruct (negb (HasPrefix token "Bearer")); [discriminate|].
    destruct (sliceFrom 7 token) as [t|]; [|discriminate].
    destruct (Validate v t) as [claims|err] eqn:Ev; [|destruct logger; discriminate].
    destruct (index claims "sub") as [|s| | |] eqn:Es; try discriminate.
    simpl in Hout.
    destruct (assertStrings (index claims "roles")); [|discriminate].
    destruct (assertStrings (index claims "permissions")); [|discriminate].
    destruct logger; [discriminate|].
    simpl in Hout. injection Hout as <-. split.
    - exists t, claims, s. repeat split; try reflexivity; assumption.
    - simpl. by rewrite Emd. }
  destruct Hshape as [Hsub Hmd].
  assert (Hid : common.GetUserID ctx' = common.GetUserID ctx).
  { unfold common.GetUserID, FromIncomingContext. by rewrite Hmd. }
  split; [exact Hsub|]. split; [exact Hmd|]. split; [exact Hid|].
  intros now m. split.
  - rewrite <- Hid. apply Interceptor_identity.
  - intros userID Hother. apply Interceptor_other_users. by rewrite Hid.
Qed.

Lemma identity_from_metadata_witness :
  let ctx' := WithValue
                (WithValue (WithValue ctxOther "user_id" (AnyString "u1"))
                   "roles" (AnyStrings ["trader"]))
                "permissions" (AnyStrings ["orders:read"]) in
  outcome (AuthInterceptor zapLogger testValidator ctxOther "/exchange.Orders/Get") = Handled ctx'
  /\ common.GetUserID ctx' = common.GetUserID ctxOther
  /\ common.GetUserID ctxOther = "u2".
Proof.
  assert (Hout : outcome (AuthInterceptor zapLogger testValidator ctxOther "/exchange.Orders/Get")
                 = Handled (WithValue
                      (WithValue (WithValue ctxOther "user_id" (AnyString "u1"))
                         "roles" (AnyStrings ["trader"]))
                      "permissions" (AnyStrings ["orders:read"])))
    by (vm_compute; reflexivity).
  split; [exact Hout|]. split.
  - exact (proj1 (proj2 (proj2 (identity_from_metadata zapLogger testValidator ctxOther
                                  "/exchange.Orders/Get" _ Hout)))).
  - vm_compute. reflexivity.
Defined.

(** ** Status categories of the failures (C9) *)

Ltac no_handler :=
  let Hin := fresh "Hin" in
  intros Hin;
  repeat (apply elem_of_cons in Hin as [Hin|Hin]; [discriminate Hin|]);
  by apply elem_of_nil in Hin.

Lemma globalTier_perUserRate now m : perUserRate (globalTier now m).2 = perUserRate m.
Proof. unfold globalTier. by destruct (rate.Allow now (defaultLimiter m)). Qed.

Lemma methodTier_perUserRate now FullMethod m :
  perUserRate (methodTier now FullMethod m).2 = perUserRate m.
Proof.
  unfold methodTier. destruct (methodLimiters m !! FullMethod) as [l|].
  - by destruct (rate.Allow now l).
  - by destruct (rate.Allow now (defaultLimiter m)).
Qed.

(** The error returns of [AuthInterceptor] when it has a logger, with a
    credential counted as malformed when the check the code makes refuses
    it. *)
Lemma auth_failures {V} `{JWTValidator V} (v : V) ctx FullMethod :
  let auth := AuthInterceptor zapLogger v ctx FullMethod in
  (incoming ctx = None -> auth = fails MissingMetadata "missing metadata" [])
  /\ (forall md, incoming ctx = Some md -> MD_Get md "authorization" = [] ->
        auth = fails MissingCredential "missing authorization header" [])
  /\ (forall md token rest,
        incoming ctx = Some md -> MD_Get md "authorization" = token :: rest ->
        HasPrefix token "Bearer" = false ->
        auth = fails MalformedCredential "invalid authorization format" [])
  /\ (forall md token rest t err,
        incoming ctx = Some md -> MD_Get md "authorization" = token :: rest ->
        HasPrefix token "Bearer" = true -> sliceFrom 7 token = Some t ->
        Validate v t = inr err ->
        auth = fails InvalidToken ("invalid token: " +:+ err) [Validated t])
  /\ (forall st, outcome auth = Failed st ->
        code st = Unauthenticated /\ (HandlerCalled ∉ events auth)).
Proof.
  cbv zeta. repeat match goal with |- _ /\ _ => split end.
  - intros Hmd. unfold AuthInterceptor, FromIncomingContext. by rewrite Hmd.
  - intros md Hmd Hget. unfold AuthInterceptor, FromIncomingContext. by rewrite Hmd, Hget.
  - intros md token rest Hmd Hget Hpre.
    by rewrite (AuthInterceptor_token zapLogger v ctx _ md token rest Hmd Hget), Hpre.
  - intros md token rest t err Hmd Hget Hpre Hslice Hval.
    by rewrite (AuthInterceptor_token zapLogger v ctx _ md token rest Hmd Hget),
         Hpre, Hslice, Hval.
  - intros st. unfold AuthInterceptor, FromIncomingContext, logging.
    destruct (incoming ctx) as [md|]; [|intros [= <-]; split; [done | no_handler]].
    destruct (MD_Get md "authorization") as [|token rest];
      [intros [= <-]; split; [done | no_handler]|].
    destruct (negb (HasPrefix token "Bearer"));
      [intros [= <-]; split; [done | no_handler]|].
    destruct (sliceFrom 7 token) as [t|]; [|discriminate].
    destruct (Validate v t) as [claims|err];
      [|intros [= <-]; split; [done | no_handler]].
    destruct (assertString (index claims "sub")); [|discriminate].
    destruct (assertStrings (index claims "roles")); [|discriminate].
    destruct (assertStrings (index claims "permissions")); discriminate.
Qed.

(** The error returns of the rate limiter's [Interceptor]. *)
Lemma admission_failures now ctx FullMethod m :
  let adm := (Interceptor now ctx FullMethod m).1 in
  let m1 := (globalTier now m).2 in
  let m2 := (methodTier now FullMethod m1).2 in
  let userID := common.GetUserID ctx in
  ((globalTier now m).1 = false ->
     adm = fails GlobalRateLimitExceeded "global rate limit exceeded"
             [Allowed DefaultLimiter false])
  /\ ((globalTier now m).1 = true -> (methodTier now FullMethod m1).1.2 = false ->
     outcome adm
     = Failed (Error (category MethodRateLimitExceeded) "method rate limit exceeded"))
  /\ ((globalTier now m).1 = true -> (methodTier now FullMethod m1).1.2 = true ->
      0 < perUserRate m -> userID = "" ->
     outcome adm = Failed (Error (category MissingIdentity) "user_id is required"))
  /\ ((globalTier now m).1 = true -> (methodTier now FullMethod m1).1.2 = true ->
      0 < perUserRate m -> userID <> "" -> (perUserTier now userID m2).1.2 = false ->
     outcome adm
     = Failed (Error (category CallerRateLimitExceeded) "per-user rate limit exceeded"))
  /\ (forall st, outcome adm = Failed st ->
        (HandlerCalled ∉ events adm)
        /\ (code st = ResourceExhausted
            \/ (code st = InvalidArgument /\ 0 < perUserRate m /\ userID = ""))).
Proof.
  cbv zeta. unfold Interceptor.
  pose proof (globalTier_perUserRate now m) as Hr1.
  destruct (globalTier now m) as [ok1 m1]; simpl in *.
  pose proof (methodTier_perUserRate now FullMethod m1) as Hr2.
  destruct (methodTier now FullMethod m1) as [[r ok2] m2]; simpl in *.
  rewrite <- Hr1, <- Hr2.
  destruct ok1; simpl.
  2: { repeat split; try discriminate; try reflexivity.
       - no_handler.
       - left. by match goal with Hst : Failed _ = Failed _ |- _ => injection Hst as <- end. }
  destruct ok2; simpl.
  2: { repeat split; try discriminate; try reflexivity.
       - no_handler.
       - left. by match goal with Hst : Failed _ = Failed _ |- _ => injection Hst as <- end. }
  destruct (Z.ltb_spec 0 (perUserRate m2)) as [Hpos|Hnot]; simpl.
  2: { repeat split; try discriminate; try lia. }
  destruct (String.eqb_spec (common.GetUserID ctx) "") as [Hempty|Hsome]; simpl.
  { repeat split; try discriminate; try reflexivity; try congruence.
    - no_handler.
    - right. match goal with Hst : Failed _ = Failed _ |- _ => injection Hst as <- end. auto. }
  destruct (perUserLimiters m2 !! common.GetUserID ctx) as [user|] eqn:E.
  - unfold perUserTier. rewrite E.
    destruct (rate.Allow now (limiter user)) as [ok3 l3]; simpl.
    destruct ok3; simpl; repeat split; try discriminate; try reflexivity; try congruence.
    + no_handler.
    + left. by match goal with Hst : Failed _ = Failed _ |- _ => injection Hst as <- end.
  - rewrite (perUserTier_absent _ _ _ E).
    destruct (rate.Allow now (rate.NewLimiter (perUserRate m2) (perUserBurst m2))).1;
      simpl; repeat split; try discriminate; try reflexivity; try congruence.
    + no_handler.
    + left. by match goal with Hst : Failed _ = Failed _ |- _ => injection Hst as <- end.
Qed.

(** C9, evaluated on the code: three failures of the failure table are
    not surfaced as Unauthenticated. A malformed credential, "BearerXabc",
    which does not start with "Bearer ", passes the check of the scheme
    and, its remainder "abc" being a token the validator accepts, is
    handed to the handler. Another one, "Bearer", makes the interceptor
    panic in the slice. And a call without metadata makes the interceptor
    panic when it was given no logger, at the warning that precedes the
    return. The claim has each of them returned as Unauthenticated, with
    the handler not invoked. *)
Theorem failures_not_surfaced FullMethod :
  category MalformedCredential = Unauthenticated
  /\ category MissingMetadata = Unauthenticated
  /\ HasPrefix "BearerXabc" "Bearer " = false
  /\ AuthInterceptor zapLogger testValidator (ctxAuth "BearerXabc") FullMethod
     = {| events := [Validated "abc"; HandlerCalled];
          outcome :=
            Handled
              (WithValue
                 (WithValue
                    (WithValue (ctxAuth "BearerXabc") "user_id" (AnyString "u1"))
                    "roles" (AnyStrings ["trader"]))
                 "permissions" (AnyStrings ["orders:read"])) |}
  /\ HasPrefix "Bearer" "Bearer " = false
  /\ AuthInterceptor zapLogger testValidator (ctxAuth "Bearer") FullMethod
     = {| events := []; outcome := Panicked "slice bounds out of range" |}
  /\ AuthInterceptor nilLogger testValidator ctxBare FullMethod
     = {| events := []; outcome := Panicked "nil pointer dereference" |}.
Proof. repeat split; vm_compute; reflexivity. Qed.

(** * Further properties of the code *)

(** ** The single-limiter interceptor *)

Lemma serveAt_content now ctx n : forall (k : nat) lim,
  rate.advance now lim = Z.of_nat k * rate.Second ->
  (serveAt now ctx n lim).1
  = replicate (Nat.min n k) (Handled ctx)
    ++ replicate (n - k) (Failed (Error ResourceExhausted "rate limit exceeded")).
Proof.
  induction n as [|n IH]; intros k lim Hk; [reflexivity|].
  cbn [serveAt]. unfold RateLimiterInterceptor, rate.Allow.
  destruct k as [|k].
  - destruct (Z.leb_spec rate.Second (rate.advance now lim)) as [Hle|Hlt].
    { unfold rate.Second in *. lia. }
    cbn [negb]. specialize (IH 0%nat lim Hk).
    destruct (serveAt now ctx n lim) as [os l']. simpl in *. rewrite IH.
    by rewrite Nat.min_0_r, Nat.sub_0_r.
  - destruct (Z.leb_spec rate.Second (rate.advance now lim)) as [Hle|Hlt].
    2: { unfold rate.Second in *. lia. }
    cbn [negb].
    set (l := {| rate.limit := rate.limit lim; rate.burst := rate.burst lim;
                 rate.tokens := rate.advance now lim - rate.Second;
                 rate.last := now |}).
    assert (Hl : rate.advance now l = Z.of_nat k * rate.Second).
    { assert (Hcap : rate.advance now lim <= rate.burst lim * rate.Second)
        by (unfold rate.advance; lia).
      unfold rate.advance, l; cbn. rewrite Z.sub_diag. unfold rate.Second in *. lia. }
    specialize (IH k l Hl).
    destruct (serveAt now ctx n l) as [os l']. simpl in *. by rewrite IH.
Qed.

(** X1. Through [RateLimiterInterceptor] with a new limiter of burst [b]
    (and a rate that is not negative), of [n] calls at one instant the
    first [b] are handed to the handler with their context and all later
    ones are refused with ResourceExhausted. *)
Theorem single_limiter_burst now ctx n r b :
  0 <= r -> 0 <= b ->
  (serveAt now ctx n (rate.NewLimiter r b)).1
  = replicate (Nat.min n (Z.to_nat b)) (Handled ctx)
    ++ replicate (n - Z.to_nat b)
         (Failed (Error ResourceExhausted "rate limit exceeded")).
Proof.
  intros Hr Hb. apply serveAt_content.
  rewrite advance_NewLimiter by assumption. by rewrite Z2Nat.id.
Qed.

Lemma single_limiter_burst_witness :
  (serveAt 7 ctxBare 3 (rate.NewLimiter 5 2)).1
  = [Handled ctxBare; Handled ctxBare;
     Failed (Error ResourceExhausted "rate limit exceeded")].
Proof.
  exact (single_limiter_burst 7 ctxBare 3 5 2 ltac:(lia) ltac:(lia)).
Defined.

(** ** What a call of [Interceptor] changes and what it leaves *)

Ltac in_events :=
  repeat (first [ apply list_elem_of_here | apply list_elem_of_further ]).

(** X2. The rate limiter's interceptor hands the call to the handler
    exactly when its outcome is the handler's, and then on the context it
    received: it never changes the context. *)
Theorem Interceptor_handler now ctx FullMethod m :
  let r := (Interceptor now ctx FullMethod m).1 in
  (HandlerCalled ∈ events r <-> outcome r = Handled ctx)
  /\ (forall ctx', outcome r = Handled ctx' -> ctx' = ctx).
Proof.
  cbv zeta. unfold Interceptor.
  destruct (globalTier now m) as [ok1 m1].
  destruct ok1; simpl; [|split; [split; [no_handler | discriminate] | discriminate]].
  destruct (methodTier now FullMethod m1) as [[r ok2] m2].
  destruct ok2; simpl; [|split; [split; [no_handler | discriminate] | discriminate]].
  destruct (0 <? perUserRate m2); simpl.
  2: { split; [split; [reflexivity | intros _; in_events] | by intros ctx' [= <-]]. }
  destruct (String.eqb (common.GetUserID ctx) ""); simpl;
    [split; [split; [no_handler | discriminate] | discriminate]|].
  destruct (perUserLimiters m2 !! common.GetUserID ctx) as [user|] eqn:E.
  - unfold perUserTier. rewrite E.
    destruct (rate.Allow now (limiter user)) as [ok3 l3]; simpl.
    destruct ok3; simpl.
    + split; [split; [reflexivity | intros _; in_events] | by intros ctx' [= <-]].
    + split; [split; [no_handler | discriminate] | discriminate].
  - rewrite (perUserTier_absent _ _ _ E).
    destruct (rate.Allow now (rate.NewLimiter (perUserRate m2) (perUserBurst m2))).1;
      simpl.
    + split; [split; [reflexivity | intros _; in_events] | by intros ctx' [= <-]].
    + split; [split; [no_handler | discriminate] | discriminate].
Qed.

Lemma Allow_config now lim :
  rate.limit (rate.Allow now lim).2 = rate.limit lim
  /\ rate.burst (rate.Allow now lim).2 = rate.burst lim.
Proof. unfold rate.Allow. by destruct (rate.Second <=? rate.advance now lim). Qed.

Lemma sameSettings_trans m1 m2 m3 :
  sameSettings m1 m2 -> sameSettings m2 m3 -> sameSettings m1 m3.
Proof. unfold sameSettings. intuition congruence. Qed.

Lemma globalTier_settings now m :
  sameSettings m (globalTier now m).2
  /\ methodLimiters (globalTier now m).2 = methodLimiters m.
Proof.
  unfold globalTier, sameSettings. pose proof (Allow_config now (defaultLimiter m)) as [Hl Hb].
  by destruct (rate.Allow now (defaultLimiter m)).
Qed.

Lemma methodTier_settings now FullMethod m :
  sameSettings m (methodTier now FullMethod m).2
  /\ dom (methodLimiters (methodTier now FullMethod m).2) = dom (methodLimiters m)
  /\ forall method, method <> FullMethod ->
       methodLimiters (methodTier now FullMethod m).2 !! method
       = methodLimiters m !! method.
Proof.
  unfold methodTier, sameSettings.
  destruct (methodLimiters m !! FullMethod) as [l|] eqn:E.
  - destruct (rate.Allow now l) as [ok l']; simpl. split; [done|]. split.
    + rewrite dom_insert_L. apply elem_of_dom_2 in E.
      apply subseteq_union_1_L. by apply singleton_subseteq_l.
    + intros method Hne. by rewrite lookup_insert_ne.
  - pose proof (Allow_config now (defaultLimiter m)) as [Hl Hb].
    by destruct (rate.Allow now (defaultLimiter m)).
Qed.

Lemma perUserTier_settings now userID m :
  sameSettings m (perUserTier now userID m).2
  /\ methodLimiters (perUserTier now userID m).2 = methodLimiters m.
Proof.
  destruct (perUserLimiters m !! userID) as [user|] eqn:E.
  - unfold perUserTier, sameSettings. rewrite E.
    by destruct (rate.Allow now (limiter user)).
  - by rewrite (perUserTier_absent _ _ _ E).
Qed.

(** X3. A call changes no setting (per-user template, sweep periods, rate
    and burst of the default limiter), adds no method to and removes none
    from the method table, and leaves the limiter of every method other
    than the called one as it was. *)
Theorem Interceptor_frame now ctx FullMethod m :
  let m' := (Interceptor now ctx FullMethod m).2 in
  sameSettings m m'
  /\ dom (methodLimiters m') = dom (methodLimiters m)
  /\ forall method, method <> FullMethod ->
       methodLimiters m' !! method = methodLimiters m !! method.
Proof.
  cbv zeta. unfold Interceptor.
  pose proof (globalTier_settings now m) as [Hs1 Ht1].
  destruct (globalTier now m) as [ok1 m1]; simpl in Hs1, Ht1.
  destruct ok1; simpl; [|by rewrite Ht1].
  pose proof (methodTier_settings now FullMethod m1) as (Hs2 & Hd2 & Ht2).
  destruct (methodTier now FullMethod m1) as [[r ok2] m2]; simpl in Hs2, Hd2, Ht2.
  assert (Hs : sameSettings m m2) by eauto using sameSettings_trans.
  assert (Hd : dom (methodLimiters m2) = dom (methodLimiters m)) by congruence.
  assert (Ht : forall method, method <> FullMethod ->
                 methodLimiters m2 !! method = methodLimiters m !! method).
  { intros method Hne. rewrite Ht2 by assumption. by rewrite Ht1. }
  destruct ok2; simpl; [|done].
  destruct (0 <? perUserRate m2); simpl; [|done].
  destruct (String.eqb (common.GetUserID ctx) ""); simpl; [done|].
  pose proof (perUserTier_settings now (common.GetUserID ctx) m2) as [Hs3 Ht3].
  destruct (perUserTier now (common.GetUserID ctx) m2) as [[evs ok3] m3];
    simpl in Hs3, Ht3.
  assert (sameSettings m m3) by eauto using sameSettings_trans.
  destruct ok3; simpl; rewrite Ht3; done.
Qed.

(** ** The default limiter under the fallback of the method tier *)

Lemma firstn_two {A} (l : list A) a b :
  l !! 0%nat = Some a -> l !! 1%nat = Some b -> firstn 2 l = [a; b].
Proof.
  destruct l as [|x [|y l]]; intros Ha Hb; try discriminate.
  injection Ha as ->. injection Hb as ->. reflexivity.
Qed.

(** X4. For a method without a limiter of its own, the default limiter
    pays for the global tier and again for the method tier. With less than
    one token at [now] the call is refused at the global tier; with one
    token but not two it is refused at the method tier, and that token is
    gone; with two tokens the call passes both tiers and the default
    limiter is left with two tokens less. *)
Theorem fallback_needs_two_tokens now ctx FullMethod m :
  methodLimiters m !! FullMethod = None ->
  let t := rate.advance now (defaultLimiter m) in
  let res := Interceptor now ctx FullMethod m in
  (t < rate.Second ->
     outcome res.1 = Failed (Error ResourceExhausted "global rate limit exceeded"))
  /\ (rate.Second <= t < 2 * rate.Second ->
     outcome res.1 = Failed (Error ResourceExhausted "method rate limit exceeded")
     /\ rate.tokens (defaultLimiter res.2) = t - rate.Second)
  /\ (2 * rate.Second <= t ->
     firstn 2 (events res.1) = [Allowed DefaultLimiter true; Allowed DefaultLimiter true]
     /\ rate.tokens (defaultLimiter res.2) = t - 2 * rate.Second).
Proof.
  intros Hnone. cbv zeta.
  set (t := rate.advance now (defaultLimiter m)).
  assert (Hcap : t <= rate.burst (defaultLimiter m) * rate.Second)
    by (unfold t, rate.advance; lia).
  set (l1 := {| rate.limit := rate.limit (defaultLimiter m);
                rate.burst := rate.burst (defaultLimiter m);
                rate.tokens := t - rate.Second; rate.last := now |}).
  assert (H1 : rate.Second <= t -> globalTier now m = (true, with_defaultLimiter l1 m)).
  { intros Hone. unfold globalTier, rate.Allow. fold t.
    destruct (Z.leb_spec rate.Second t); [reflexivity | lia]. }
  assert (H2 : methodTier now FullMethod (with_defaultLimiter l1 m)
               = let '(ok, l) := if rate.Second <=? t - rate.Second
                                 then (true, {| rate.limit := rate.limit l1;
                                                rate.burst := rate.burst l1;
                                                rate.tokens := t - rate.Second - rate.Second;
                                                rate.last := now |})
                                 else (false, l1) in
                 (DefaultLimiter, ok, with_defaultLimiter l (with_defaultLimiter l1 m))).
  { unfold methodTier. cbn [methodLimiters with_defaultLimiter defaultLimiter].
    rewrite Hnone.
    by rewrite Allow_same_instant by (unfold l1, rate.Second in *; cbn; lia). }
  split; [|split].
  - intros Hlt. rewrite Interceptor_global_refused; [reflexivity|].
    unfold rate.Allow. fold t. destruct (Z.leb_spec rate.Second t); [lia | reflexivity].
  - intros [Hone Htwo]. unfold Interceptor. rewrite (H1 Hone). cbn [negb]. rewrite H2.
    destruct (Z.leb_spec rate.Second (t - rate.Second)) as [Hle|_].
    { unfold rate.Second in *. lia. }
    split; reflexivity.
  - intros Htwo.
    assert (Hone : rate.Second <= t) by (unfold rate.Second in *; lia).
    destruct (Interceptor_method_tier now ctx FullMethod m) as (Hev & Hdef & _).
    { by rewrite (H1 Hone). }
    rewrite (H1 Hone) in Hev, Hdef. cbn [snd] in Hev, Hdef. rewrite H2 in Hev, Hdef.
    destruct (Z.leb_spec rate.Second (t - rate.Second)) as [_|Hlt].
    2: { unfold rate.Second in *. lia. }
    cbn in Hev, Hdef. rewrite Hdef. split; [|cbn; lia].
    assert (H0 : events (Interceptor now ctx FullMethod m).1 !! 0%nat
                 = Some (Allowed DefaultLimiter true)).
    { unfold Interceptor. rewrite (H1 Hone). cbn [negb].
      destruct (methodTier now FullMethod _) as [[r ok2] m2].
      destruct ok2; [|reflexivity]. cbn [negb].
      destruct (0 <? perUserRate m2); [|reflexivity].
      destruct (String.eqb (common.GetUserID ctx) ""); [reflexivity|].
      destruct (perUserTier now (common.GetUserID ctx) m2) as [[evs ok3] m3].
      by destruct ok3. }
    exact (firstn_two _ _ _ H0 Hev).
Qed.

Lemma fallback_needs_two_tokens_witness :
  methodLimiters globalRegistry !! "/exchange.Orders/Get" = None
  /\ firstn 2 (events (Interceptor 0 ctxBare "/exchange.Orders/Get" globalRegistry).1)
     = [Allowed DefaultLimiter true; Allowed DefaultLimiter true]
  /\ rate.tokens (defaultLimiter (Interceptor 0 ctxBare "/exchange.Orders/Get"
                                    globalRegistry).2) = 0.
Proof.
  assert (Hnone : methodLimiters globalRegistry !! "/exchange.Orders/Get" = None)
    by reflexivity.
  split; [exact Hnone|].
  apply (proj2 (proj2 (fallback_needs_two_tokens 0 ctxBare "/exchange.Orders/Get"
                         globalRegistry Hnone))).
  vm_compute. discriminate.
Defined.

(** ** The per-user tier *)

(** X5. While the per-user rate is not positive (as after
    [NewMethodRateLimiterInterceptor]), the per-user tier is skipped: the
    call needs no identity, its events and the state it leaves do not
    depend on the context, no per-user limiter is allocated or consulted,
    the per-user table is left as it was, and the call is either handed to
    the handler or refused by the global or the method tier. *)
Theorem perUser_tier_skipped now ctx FullMethod m :
  perUserRate m <= 0 ->
  let res := Interceptor now ctx FullMethod m in
  (forall ctx2, events (Interceptor now ctx2 FullMethod m).1 = events res.1
                /\ (Interceptor now ctx2 FullMethod m).2 = res.2)
  /\ Forall (fun e => identityOf e = None) (events res.1)
  /\ perUserLimiters res.2 = perUserLimiters m
  /\ (outcome res.1 = Handled ctx
      \/ outcome res.1 = Failed (Error ResourceExhausted "global rate limit exceeded")
      \/ outcome res.1 = Failed (Error ResourceExhausted "method rate limit exceeded")).
Proof.
  intros Hoff. cbv zeta. unfold Interceptor.
  pose proof (globalTier_settings now m) as [(Hr1 & _) _].
  pose proof (globalTier_perUserLimiters now m) as Hu1.
  destruct (globalTier now m) as [ok1 m1]; simpl in Hr1, Hu1.
  destruct ok1; cbn [negb].
  2: { split; [intros ctx2; split; reflexivity|].
       split; [repeat (apply Forall_cons; split; [first [reflexivity | apply (Hr true) | apply (Hr false)]|]);
              constructor|].
       split; [exact Hu1 | auto]. }
  pose proof (methodTier_settings now FullMethod m1) as [(Hr2 & _) _].
  pose proof (methodTier_perUserLimiters now FullMethod m1) as Hu2.
  assert (Hr : forall ok, identityOf (Allowed (methodTier now FullMethod m1).1.1 ok) = None).
  { intros ok. unfold methodTier. destruct (methodLimiters m1 !! FullMethod) as [l|].
    - by destruct (rate.Allow now l).
    - by destruct (rate.Allow now (defaultLimiter m1)). }
  destruct (methodTier now FullMethod m1) as [[r ok2] m2]; simpl in Hr2, Hu2, Hr.
  destruct ok2; cbn [negb].
  2: { split; [intros ctx2; split; reflexivity|].
       split; [repeat (apply Forall_cons; split; [first [reflexivity | apply (Hr true) | apply (Hr false)]|]);
              constructor|].
       split; [cbn; congruence | auto]. }
  destruct (Z.ltb_spec 0 (perUserRate m2)) as [Hpos|_]; [lia|].
  split; [intros ctx2; split; reflexivity|].
  split; [repeat (apply Forall_cons; split; [first [reflexivity | apply (Hr true) | apply (Hr false)]|]);
              constructor|].
  split; [cbn; congruence | auto].
Qed.

Lemma perUser_tier_skipped_witness :
  perUserRate globalRegistry <= 0
  /\ outcome (Interceptor 0 ctxBare "/exchange.Orders/Get" globalRegistry).1
     = Handled ctxBare
  /\ perUserLimiters (Interceptor 0 ctxBare "/exchange.Orders/Get" globalRegistry).2
     = perUserLimiters globalRegistry.
Proof.
  assert (Hoff : perUserRate globalRegistry <= 0) by (vm_compute; discriminate).
  split; [exact Hoff|]. split; [vm_compute; reflexivity|].
  exact (proj1 (proj2 (proj2 (perUser_tier_skipped 0 ctxBare "/exchange.Orders/Get"
                                globalRegistry Hoff)))).
Defined.

(** X6. The per-user table of a registry is empty in every state the
    registry can reach: no operation ever stores an entry. *)
Theorem reachable_table_empty m : reachable m -> perUserLimiters m = ∅.
Proof.
  induction 1 as [| method limit burst m _ IH | limit burst m _ IH
                  | now ctx FullMethod m _ IH | now m _ IH].
  - reflexivity.
  - exact IH.
  - exact IH.
  - apply dom_empty_inv_L. rewrite Interceptor_dom, IH. apply dom_empty_L.
  - by rewrite cleanupTick_unchanged.
Qed.

Lemma reachable_table_empty_witness :
  perUserLimiters
    (Interceptor 0 (ctxOf "u1") "/exchange.Orders/Get"
       (SetPerUserLimit 1 1 (NewMethodRateLimiterInterceptor 100 100))).2 = ∅.
Proof.
  apply reachable_table_empty.
  apply reachable_call, reachable_user, reachable_new.
Defined.

(** X7. In a reachable state with a per-user template of positive rate
    and burst at least 1, the per-user tier refuses no call: a call that
    carries an identity and passes the global and the method tier is
    handed to the handler, however many calls that identity has made. *)
Theorem reachable_perUser_never_refuses now ctx FullMethod m :
  reachable m -> 0 < perUserRate m -> 1 <= perUserBurst m ->
  let res := Interceptor now ctx FullMethod m in
  outcome res.1 <> Failed (Error ResourceExhausted "per-user rate limit exceeded")
  /\ ((globalTier now m).1 = true ->
      (methodTier now FullMethod (globalTier now m).2).1.2 = true ->
      common.GetUserID ctx <> "" ->
      outcome res.1 = Handled ctx).
Proof.
  intros Hreach Hrate Hburst. cbv zeta.
  pose proof (reachable_table_empty m Hreach) as Hempty.
  unfold Interceptor.
  pose proof (globalTier_settings now m) as [(Hr1 & Hb1 & _) _].
  pose proof (globalTier_perUserLimiters now m) as Hu1.
  destruct (globalTier now m) as [ok1 m1]; simpl in Hr1, Hb1, Hu1.
  destruct ok1; cbn [negb fst snd]; [|split; [discriminate|discriminate]].
  pose proof (methodTier_settings now FullMethod m1) as [(Hr2 & Hb2 & _) _].
  pose proof (methodTier_perUserLimiters now FullMethod m1) as Hu2.
  destruct (methodTier now FullMethod m1) as [[r ok2] m2]; simpl in Hr2, Hb2, Hu2.
  destruct ok2; cbn [negb fst snd]; [|split; [discriminate|discriminate]].
  destruct (Z.ltb_spec 0 (perUserRate m2)) as [_|Hnot]; [|lia].
  destruct (String.eqb_spec (common.GetUserID ctx) "") as [Hid|Hid];
    [split; [discriminate|congruence]|].
  assert (Hno : perUserLimiters m2 !! common.GetUserID ctx = None)
    by (by rewrite Hu2, Hu1, Hempty).
  rewrite (perUserTier_absent _ _ _ Hno).
  rewrite Allow_NewLimiter by lia. cbn. split; [discriminate|reflexivity].
Qed.

Lemma reachable_perUser_never_refuses_witness :
  reachable perUserRegistry /\ 0 < perUserRate perUserRegistry
  /\ 1 <= perUserBurst perUserRegistry
  /\ outcome (Interceptor 0 (ctxOf "u1") "/exchange.Orders/Get" perUserRegistry).1
     <> Failed (Error ResourceExhausted "per-user rate limit exceeded").
Proof.
  assert (Hreach : reachable perUserRegistry) by apply reachable_user, reachable_new.
  assert (Hrate : 0 < perUserRate perUserRegistry) by reflexivity.
  assert (Hburst : 1 <= perUserBurst perUserRegistry) by (vm_compute; discriminate).
  repeat (split; [assumption|]).
  exact (proj1 (reachable_perUser_never_refuses 0 (ctxOf "u1") "/exchange.Orders/Get"
                  perUserRegistry Hreach Hrate Hburst)).
Defined.

(** X8. When the table does hold an entry for the identity of a call
    that reaches the per-user tier, the entry's [lastUsed] becomes the
    instant of the call and its limiter is the one the call is judged by,
    whether the call is admitted or refused; a refusal leaves the tokens
    of that limiter as they were. *)
Theorem stored_entry_refreshed now ctx FullMethod m user :
  perUserLimiters m !! common.GetUserID ctx = Some user ->
  0 < perUserRate m -> common.GetUserID ctx <> "" ->
  (globalTier now m).1 = true ->
  (methodTier now FullMethod (globalTier now m).2).1.2 = true ->
  let res := Interceptor now ctx FullMethod m in
  perUserLimiters res.2 !! common.GetUserID ctx
  = Some {| limiter := (rate.Allow now (limiter user)).2; lastUsed := now |}
  /\ outcome res.1
     = (if (rate.Allow now (limiter user)).1 then Handled ctx
        else Failed (Error ResourceExhausted "per-user rate limit exceeded"))
  /\ ((rate.Allow now (limiter user)).1 = false ->
      (rate.Allow now (limiter user)).2 = limiter user).
Proof.
  intros Hentry Hrate Hid Hg Hm. cbv zeta.
  assert (Hres : Interceptor now ctx FullMethod m
                 = let '(evs, ok3, m3) :=
                     perUserTier now (common.GetUserID ctx)
                       (methodTier now FullMethod (globalTier now m).2).2 in
                   let tiers := [Allowed DefaultLimiter true;
                                 Allowed (methodTier now FullMethod (globalTier now m).2).1.1
                                   true] in
                   if negb ok3 then
                     ({| events := tiers ++ evs;
                         outcome := Failed (Error ResourceExhausted
                                              "per-user rate limit exceeded") |}, m3)
                   else
                     ({| events := tiers ++ evs ++ [HandlerCalled];
                         outcome := Handled ctx |}, m3)).
  { unfold Interceptor.
    pose proof (globalTier_settings now m) as [(Hr1 & _) _].
    destruct (globalTier now m) as [ok1 m1]; cbn [fst snd] in *. subst ok1.
    pose proof (methodTier_settings now FullMethod m1) as [(Hr2 & _) _].
    destruct (methodTier now FullMethod m1) as [[r ok2] m2]; cbn [fst snd] in *.
    subst ok2. cbn [negb].
    destruct (Z.ltb_spec 0 (perUserRate m2)) as [_|Hnot]; [|lia].
    destruct (String.eqb_spec (common.GetUserID ctx) "") as [Hempty|_]; [done|].
    reflexivity. }
  rewrite Hres. clear Hres.
  assert (Hstored : perUserLimiters (methodTier now FullMethod (globalTier now m).2).2
                      !! common.GetUserID ctx = Some user)
    by (by rewrite methodTier_perUserLimiters, globalTier_perUserLimiters).
  unfold perUserTier. rewrite Hstored.
  pose proof (Allow_refused now (limiter user)) as Hsame.
  destruct (rate.Allow now (limiter user)) as [ok3 l3]; cbn [fst snd] in *.
  destruct ok3; cbn; (split; [by rewrite lookup_insert_eq | split; [reflexivity | done]]).
Qed.

Lemma stored_entry_refreshed_witness :
  lastUsed <$> perUserLimiters
    (Interceptor (20 * Minute) (ctxOf "u1") "/exchange.Orders/Get" sweptRegistry).2
    !! "u1"
  = Some (20 * Minute).
Proof.
  assert (Hid : common.GetUserID (ctxOf "u1") = "u1") by (vm_compute; reflexivity).
  pose proof (stored_entry_refreshed (20 * Minute) (ctxOf "u1") "/exchange.Orders/Get"
                sweptRegistry {| limiter := rate.NewLimiter 1 1; lastUsed := 0 |}) as H.
  rewrite Hid in H.
  destruct H as [H _]; [vm_compute; reflexivity | reflexivity | discriminate
                        | vm_compute; reflexivity | vm_compute; reflexivity |].
  rewrite H. reflexivity.
Defined.

(** ** The sweep *)

(** X10. No sweep removes anything: after any number of ticks of
    [cleanupOldUsers], at any instants, the registry is in the state it
    was in before, so every entry of the per-user table is still there,
    however long ago it was last used. *)
Theorem sweep_never_evicts ticks m userID :
  cleanupOldUsers ticks m = m
  /\ perUserLimiters (cleanupOldUsers ticks m) !! userID = perUserLimiters m !! userID.
Proof. by rewrite cleanupOldUsers_unchanged. Qed.

(** ** [SetMethodLimit] and the calls of other methods *)

Lemma globalTier_SetMethodLimit now method limit burst m :
  globalTier now (SetMethodLimit method limit burst m)
  = ((globalTier now m).1, SetMethodLimit method limit burst (globalTier now m).2).
Proof.
  unfold globalTier, SetMethodLimit; cbn.
  by destruct (rate.Allow now (defaultLimiter m)).
Qed.

Lemma methodTier_SetMethodLimit now FullMethod method limit burst m :
  method <> FullMethod ->
  methodTier now FullMethod (SetMethodLimit method limit burst m)
  = ((methodTier now FullMethod m).1,
     SetMethodLimit method limit burst (methodTier now FullMethod m).2).
Proof.
  intros Hne. unfold methodTier, SetMethodLimit; cbn.
  rewrite lookup_insert_ne by assumption.
  destruct (methodLimiters m !! FullMethod) as [l|].
  - destruct (rate.Allow now l) as [ok l']; cbn.
    unfold with_methodLimiters; cbn. by rewrite insert_insert_ne.
  - by destruct (rate.Allow now (defaultLimiter m)).
Qed.

Lemma perUserTier_SetMethodLimit now userID method limit burst m :
  perUserTier now userID (SetMethodLimit method limit burst m)
  = ((perUserTier now userID m).1,
     SetMethodLimit method limit burst (perUserTier now userID m).2).
Proof.
  unfold perUserTier, SetMethodLimit; cbn.
  destruct (perUserLimiters m !! userID) as [user|].
  - by destruct (rate.Allow now (limiter user)).
  - by destruct (rate.Allow now (rate.NewLimiter (perUserRate m) (perUserBurst m))).
Qed.

(** X11. Setting the limit of one method and serving a call of another
    method commute: the call has the same events and outcome whether the
    limit is set before it or not, and the state is the same whether the
    limit is set before or after the call. Setting the limit of a method
    again replaces the earlier setting. *)
Theorem SetMethodLimit_other_method now ctx FullMethod method limit burst m :
  method <> FullMethod ->
  Interceptor now ctx FullMethod (SetMethodLimit method limit burst m)
  = ((Interceptor now ctx FullMethod m).1,
     SetMethodLimit method limit burst (Interceptor now ctx FullMethod m).2)
  /\ forall limit' burst',
       SetMethodLimit method limit burst (SetMethodLimit method limit' burst' m)
       = SetMethodLimit method limit burst m.
Proof.
  intros Hne. split.
  - unfold Interceptor. rewrite globalTier_SetMethodLimit.
    destruct (globalTier now m) as [ok1 m1]; cbn [fst snd].
    destruct ok1; cbn [negb]; [|reflexivity].
    rewrite methodTier_SetMethodLimit by assumption.
    destruct (methodTier now FullMethod m1) as [[r ok2] m2]; cbn [fst snd].
    destruct ok2; cbn [negb]; [|reflexivity].
    change (perUserRate (SetMethodLimit method limit burst m2)) with (perUserRate m2).
    destruct (0 <? perUserRate m2); [|reflexivity].
    destruct (String.eqb (common.GetUserID ctx) ""); [reflexivity|].
    rewrite perUserTier_SetMethodLimit.
    destruct (perUserTier now (common.GetUserID ctx) m2) as [[evs ok3] m3]; cbn [fst snd].
    by destruct ok3.
  - intros limit' burst'. unfold SetMethodLimit, with_methodLimiters; cbn.
    by rewrite insert_insert_eq.
Qed.

Lemma SetMethodLimit_other_method_witness :
  Interceptor 0 ctxBare "/exchange.Orders/List"
    (SetMethodLimit "/exchange.Orders/Get" 1 0 perUserRegistry)
  = ((Interceptor 0 ctxBare "/exchange.Orders/List" perUserRegistry).1,
     SetMethodLimit "/exchange.Orders/Get" 1 0
       (Interceptor 0 ctxBare "/exchange.Orders/List" perUserRegistry).2).
Proof.
  apply (SetMethodLimit_other_method 0 ctxBare "/exchange.Orders/List"
           "/exchange.Orders/Get" 1 0 perUserRegistry).
  discriminate.
Defined.

(** ** The auth stage: what reaches the validator and the handler *)

(** A call that [AuthInterceptor] hands to the handler: the credential it
    came with, the token the validator accepted, and the context the
    handler receives. *)
Lemma AuthInterceptor_handled {V} `{JWTValidator V} (logger : Logger) (v : V)
    ctx FullMethod ctx' :
  outcome (AuthInterceptor logger v ctx FullMethod) = Handled ctx' ->
  exists md first others token claims sub roles permissions,
    incoming ctx = Some md
    /\ MD_Get md "authorization" = first :: others
    /\ HasPrefix first "Bearer" = true
    /\ sliceFrom 7 first = Some token
    /\ events (AuthInterceptor logger v ctx FullMethod) = [Validated token; HandlerCalled]
    /\ Validate v token = inl claims
    /\ index claims "sub" = AnyString sub
    /\ index claims "roles" = AnyStrings roles
    /\ index claims "permissions" = AnyStrings permissions
    /\ ctx' = {| incoming := incoming ctx;
                 values := ("permissions", AnyStrings permissions)
                           :: ("roles", AnyStrings roles)
                           :: ("user_id", AnyString sub) :: values ctx |}.
Proof.
  unfold AuthInterceptor, FromIncomingContext.
  destruct (incoming ctx) as [md|] eqn:Emd; [|destruct logger; discriminate].
  destruct (MD_Get md "authorization") as [|first others] eqn:Eget;
    [destruct logger; discriminate|].
  destruct (HasPrefix first "Bearer") eqn:Epre; cbn [negb]; [|discriminate].
  destruct (sliceFrom 7 first) as [t|] eqn:Eslice; [|discriminate].
  destruct (Validate v t) as [claims|err] eqn:Ev; [|destruct logger; discriminate].
  destruct (index claims "sub") as [|sub| | |] eqn:Es; try discriminate.
  destruct (index claims "roles") as [| |roles| |] eqn:Er; try discriminate.
  destruct (index claims "permissions") as [| |permissions| |] eqn:Ep; try discriminate.
  destruct logger; [discriminate|].
  cbn. intros [= <-]. exists md, first, others, t, claims, sub, roles, permissions.
  unfold WithValue; cbn. by rewrite Emd.
Qed.

(** X12. When the auth stage hands a call to the handler, the validator
    was invoked once, on the first [authorization] value of the call
    without its first seven bytes, and accepted it; the context the
    handler receives binds "user_id", "roles" and "permissions" to the
    "sub", "roles" and "permissions" entries of the claims returned for
    that token, keeps the binding of every other key, and carries the
    incoming metadata unchanged. *)
Theorem auth_injects_claims {V} `{JWTValidator V} (logger : Logger) (v : V)
    ctx FullMethod ctx' :
  outcome (AuthInterceptor logger v ctx FullMethod) = Handled ctx' ->
  exists md first others token claims,
    incoming ctx = Some md
    /\ MD_Get md "authorization" = first :: others
    /\ sliceFrom 7 first = Some token
    /\ events (AuthInterceptor logger v ctx FullMethod) = [Validated token; HandlerCalled]
    /\ Validate v token = inl claims
    /\ Value ctx' "user_id" = Some (index claims "sub")
    /\ Value ctx' "roles" = Some (index claims "roles")
    /\ Value ctx' "permissions" = Some (index claims "permissions")
    /\ (forall k, k <> "user_id" -> k <> "roles" -> k <> "permissions" ->
          Value ctx' k = Value ctx k)
    /\ incoming ctx' = incoming ctx.
Proof.
  intros Hout.
  destruct (AuthInterceptor_handled logger v ctx FullMethod ctx' Hout)
    as (md & first & others & token & claims & sub & roles & permissions
        & Hmd & Hget & _ & Hslice & Hev & Hv & Hs & Hr & Hp & ->).
  exists md, first, others, token, claims. rewrite Hs, Hr, Hp.
  repeat split; try reflexivity; try assumption.
  intros k Hk1 Hk2 Hk3. unfold Value; cbn [values lookupValue].
  destruct (String.eqb_spec "permissions" k); [congruence|].
  destruct (String.eqb_spec "roles" k); [congruence|].
  destruct (String.eqb_spec "user_id" k); [congruence|].
  reflexivity.
Qed.

Lemma auth_injects_claims_witness :
  let ctx' := WithValue
                (WithValue (WithValue ctxOther "user_id" (AnyString "u1"))
                   "roles" (AnyStrings ["trader"]))
                "permissions" (AnyStrings ["orders:read"]) in
  outcome (AuthInterceptor zapLogger testValidator ctxOther "/exchange.Orders/Get")
  = Handled ctx'
  /\ exists md first others token claims,
       incoming ctxOther = Some md
       /\ MD_Get md "authorization" = first :: others
       /\ sliceFrom 7 first = Some token
       /\ events (AuthInterceptor zapLogger testValidator ctxOther "/exchange.Orders/Get")
          = [Validated token; HandlerCalled]
       /\ Validate testValidator token = inl claims
       /\ Value ctx' "user_id" = Some (index claims "sub")
       /\ Value ctx' "roles" = Some (index claims "roles")
       /\ Value ctx' "permissions" = Some (index claims "permissions")
       /\ (forall k, k <> "user_id" -> k <> "roles" -> k <> "permissions" ->
             Value ctx' k = Value ctxOther k)
       /\ incoming ctx' = incoming ctxOther.
Proof.
  assert (Hout : outcome (AuthInterceptor zapLogger testValidator ctxOther
                            "/exchange.Orders/Get")
                 = Handled (WithValue
                      (WithValue (WithValue ctxOther "user_id" (AnyString "u1"))
                         "roles" (AnyStrings ["trader"]))
                      "permissions" (AnyStrings ["orders:read"])))
    by (vm_compute; reflexivity).
  split; [exact Hout|].
  exact (auth_injects_claims zapLogger testValidator ctxOther "/exchange.Orders/Get"
           _ Hout).
Defined.

(** X13. The auth stage invokes the validator at most once and the
    handler at most once, the handler only after the validator: its events
    are none, the validation alone, or the validation followed by the
    handler; and the handler is invoked exactly when the outcome is the
    handler's. *)
Theorem auth_events {V} `{JWTValidator V} (logger : Logger) (v : V) ctx FullMethod :
  let r := AuthInterceptor logger v ctx FullMethod in
  (events r = []
   \/ (exists token, events r = [Validated token])
   \/ (exists token claims, events r = [Validated token; HandlerCalled]
                            /\ Validate v token = inl claims))
  /\ (HandlerCalled ∈ events r <-> exists ctx', outcome r = Handled ctx').
Proof.
  cbv zeta. unfold AuthInterceptor, FromIncomingContext, logging.
  destruct (incoming ctx) as [md|];
    [|destruct logger; (split; [by left | split; [no_handler | by intros [ctx' Hc]]])].
  destruct (MD_Get md "authorization") as [|token rest];
    [destruct logger; (split; [by left | split; [no_handler | by intros [ctx' Hc]]])|].
  destruct (negb (HasPrefix token "Bearer"));
    [split; [by left | split; [no_handler | by intros [ctx' Hc]]]|].
  destruct (sliceFrom 7 token) as [t|];
    [|split; [by left | split; [no_handler | by intros [ctx' Hc]]]].
  destruct (Validate v t) as [claims|err] eqn:Ev;
    [|destruct logger;
      (split; [right; left; by exists t | split; [no_handler | by intros [ctx' Hc]]])].
  destruct (assertString (index claims "sub"));
    [|split; [right; left; by exists t | split; [no_handler | by intros [ctx' Hc]]]].
  destruct (assertStrings (index claims "roles"));
    [|split; [right; left; by exists t | split; [no_handler | by intros [ctx' Hc]]]].
  destruct (assertStrings (index claims "permissions"));
    [|split; [right; left; by exists t | split; [no_handler | by intros [ctx' Hc]]]].
  destruct logger.
  - split; [right; left; by exists t | split; [no_handler | by intros [ctx' Hc]]].
  - split; [right; right; by exists t, claims|].
    split; [intros _; by eexists | intros _; cbn; in_events].
Qed.

(** ** The auth stage: the scheme and the slice *)

(** X14. Whatever the seventh byte of a value that starts with "Bearer"
    is, it is dropped without being looked at: for every byte [c] and
    every [rest], the validator is invoked on exactly [rest] when the
    first [authorization] value is "Bearer" followed by [c] and [rest]. *)
Theorem seventh_byte_dropped {V} `{JWTValidator V} (logger : Logger) (v : V)
    ctx FullMethod md c rest others :
  incoming ctx = Some md ->
  MD_Get md "authorization" = ("Bearer" +:+ String c rest) :: others ->
  hd_error (events (AuthInterceptor logger v ctx FullMethod)) = Some (Validated rest).
Proof.
  intros Hmd Hget. rewrite (AuthInterceptor_token logger v ctx _ md _ others Hmd Hget).
  simpl.
  destruct (Validate v rest) as [claims|err]; [|by destruct logger].
  destruct (assertString (index claims "sub")); [|reflexivity].
  destruct (assertStrings (index claims "roles")); [|reflexivity].
  destruct (assertStrings (index claims "permissions")); [|reflexivity].
  by destruct logger.
Qed.

Lemma seventh_byte_dropped_witness :
  hd_error (events (AuthInterceptor zapLogger testValidator (ctxAuth "Bearer:abc")
                      "/exchange.Orders/Get"))
  = Some (Validated "abc").
Proof.
  exact (seventh_byte_dropped zapLogger testValidator (ctxAuth "Bearer:abc")
           "/exchange.Orders/Get"
           {[ "authorization" := ["Bearer:abc"] ]} (Ascii.ascii_of_nat 58) "abc" [] eq_refl
           (MD_Get_ctxAuth "Bearer:abc")).
Defined.

(** X15. The slice of the auth stage panics on exactly one first
    [authorization] value, "Bearer" itself: every other value is either
    refused by the check of the scheme or long enough to be sliced. *)
Theorem slice_panics_only_on_bare_scheme {V} `{JWTValidator V} (logger : Logger) (v : V)
    ctx FullMethod md token others :
  incoming ctx = Some md -> MD_Get md "authorization" = token :: others ->
  (AuthInterceptor logger v ctx FullMethod
   = {| events := []; outcome := Panicked "slice bounds out of range" |}
   <-> token = "Bearer").
Proof.
  intros Hmd Hget. rewrite (AuthInterceptor_token logger v ctx _ md _ others Hmd Hget).
  split.
  - destruct (HasPrefix token "Bearer") eqn:Hpre; cbn [negb]; [|discriminate].
    apply HasPrefix_spec in Hpre as [rest ->].
    destruct rest as [|c rest]; [reflexivity|].
    simpl.
    destruct (Validate v rest) as [claims|err]; [|destruct logger; discriminate].
    destruct (assertString (index claims "sub")); [|discriminate].
    destruct (assertStrings (index claims "roles")); [|discriminate].
    destruct (assertStrings (index claims "permissions")); [|discriminate].
    destruct logger; discriminate.
  - intros ->. reflexivity.
Qed.

Lemma slice_panics_only_on_bare_scheme_witness :
  AuthInterceptor zapLogger testValidator (ctxAuth "Bearer") "/exchange.Orders/Get"
  = {| events := []; outcome := Panicked "slice bounds out of range" |}.
Proof.
  apply (slice_panics_only_on_bare_scheme zapLogger testValidator (ctxAuth "Bearer")
           "/exchange.Orders/Get" {[ "authorization" := ["Bearer"] ]} "Bearer" []
           eq_refl (MD_Get_ctxAuth "Bearer")).
  reflexivity.
Defined.

(** ** The two stages in a chain *)

(** X16. Authentication gives the admission stage no identity: when the
    incoming metadata has no (or an empty first) "user_id" entry, a call
    that the auth stage has authenticated and that passes the global and
    the method tier is refused by the admission stage with
    InvalidArgument as soon as a per-user rate is configured, whatever
    subject was validated. *)
Theorem authenticated_without_identity {V} `{JWTValidator V} (logger : Logger) (v : V)
    now ctx FullMethod ctx' m :
  outcome (AuthInterceptor logger v ctx FullMethod) = Handled ctx' ->
  common.GetUserID ctx = "" -> 0 < perUserRate m ->
  (globalTier now m).1 = true ->
  (methodTier now FullMethod (globalTier now m).2).1.2 = true ->
  outcome (Interceptor now ctx' FullMethod m).1
  = Failed (Error InvalidArgument "user_id is required").
Proof.
  intros Hout Hid Hrate Hg Hm.
  destruct (AuthInterceptor_handled logger v ctx FullMethod ctx' Hout)
    as (md & first & others & token & claims & sub & roles & permissions
        & _ & _ & _ & _ & _ & _ & _ & _ & _ & ->).
  destruct (admission_failures now
              {| incoming := incoming ctx;
                 values := ("permissions", AnyStrings permissions)
                           :: ("roles", AnyStrings roles)
                           :: ("user_id", AnyString sub) :: values ctx |}
              FullMethod m) as (_ & _ & Hmissing & _).
  apply Hmissing; assumption.
Qed.

Lemma authenticated_without_identity_witness :
  exists ctx',
    outcome (AuthInterceptor zapLogger testValidator (ctxAuth "Bearer abc")
               "/exchange.Orders/Get")
    = Handled ctx'
    /\ outcome (Interceptor 0 ctx' "/exchange.Orders/Get" perUserRegistry).1
       = Failed (Error InvalidArgument "user_id is required").
Proof.
  eexists. split; [vm_compute; reflexivity|].
  apply (authenticated_without_identity zapLogger testValidator 0 (ctxAuth "Bearer abc")
           "/exchange.Orders/Get" _ perUserRegistry);
    vm_compute; reflexivity.
Defined.

(** ** The validator of [pkg/auth] behind the auth stage *)

(** The validator of [pkg/auth] accepts a token exactly when the library
    parsed it, with the validator's secret, into map claims and marked it
    valid. *)
Lemma authValidator_accepts (ParseWithClaims : string -> string -> auth.ParseResult)
    (v : auth.JWTValidator) token claims :
  @Validate _ (authValidator ParseWithClaims) v token = inl claims
  <-> ParseWithClaims (auth.secret v) token
      = auth.Parsed {| auth.TokenClaims := auth.MapClaimsPtr claims;
                       auth.Valid := true |}.
Proof.
  unfold Validate, authValidator, auth.Validate.
  destruct (ParseWithClaims (auth.secret v) token) as [err|[[c|] [|]]]; cbn;
    split; intros Heq; try discriminate; by injection Heq as ->.
Qed.

Lemma jsonParser_decodesJSON : decodesJSON jsonParser.
Proof.
  intros key tokenString token claims Hparsed Hclaims k l.
  unfold jsonParser in Hparsed.
  destruct (String.eqb tokenString "good"); [|discriminate].
  injection Hparsed as <-. cbn in Hclaims. injection Hclaims as <-.
  unfold index.
  destruct (decide (k = "sub")) as [->|Hsub]; [vm_compute; discriminate|].
  rewrite lookup_insert_ne by congruence.
  destruct (decide (k = "roles")) as [->|Hroles]; [vm_compute; discriminate|].
  rewrite lookup_insert_ne by congruence.
  destruct (decide (k = "permissions")) as [->|Hperm]; [vm_compute; discriminate|].
  rewrite lookup_singleton_ne by congruence. discriminate.
Qed.

(** X18. With the validator of [pkg/auth], whose claims are decoded from
    JSON by the library (an array becomes a [[]interface{}], never a
    [[]string]), the auth stage never hands a call to the handler: a
    token that the library parses and marks valid, so that the validator
    accepts it, makes the interceptor panic in a type assertion, with or
    without a logger; and with a logger, a token that the library does
    not accept is Unauthenticated. *)
Theorem pkg_auth_never_handled (ParseWithClaims : string -> string -> auth.ParseResult)
    (logger : Logger) (v : auth.JWTValidator) ctx FullMethod :
  decodesJSON ParseWithClaims ->
  let r := @AuthInterceptor _ (authValidator ParseWithClaims) logger v ctx FullMethod in
  (forall ctx', outcome r <> Handled ctx')
  /\ (forall token claims,
        hd_error (events r) = Some (Validated token) ->
        ParseWithClaims (auth.secret v) token
        = auth.Parsed {| auth.TokenClaims := auth.MapClaimsPtr claims;
                         auth.Valid := true |} ->
        r = {| events := [Validated token];
               outcome := Panicked "interface conversion" |})
  /\ (forall token,
        logger = zapLogger ->
        hd_error (events r) = Some (Validated token) ->
        (forall claims,
           ParseWithClaims (auth.secret v) token
           <> auth.Parsed {| auth.TokenClaims := auth.MapClaimsPtr claims;
                             auth.Valid := true |}) ->
        exists err,
          r = {| events := [Validated token];
                 outcome := Failed (Error Unauthenticated ("invalid token: " +:+ err)) |}).
Proof.
  intros Hjson. cbv zeta. split; [|split].
  - intros ctx' Hout.
    destruct (@AuthInterceptor_handled _ (authValidator ParseWithClaims) logger v ctx
                FullMethod ctx' Hout)
      as (md & first & others & token & claims & sub & roles & permissions
          & _ & _ & _ & _ & _ & Hv & _ & Hr & _).
    apply authValidator_accepts in Hv.
    exact (Hjson _ _ _ claims Hv eq_refl "roles" roles Hr).
  - intros token claims. unfold AuthInterceptor, FromIncomingContext.
    destruct (incoming ctx) as [md|]; [|destruct logger; discriminate].
    destruct (MD_Get md "authorization") as [|first others];
      [destruct logger; discriminate|].
    destruct (negb (HasPrefix first "Bearer")); [discriminate|].
    destruct (sliceFrom 7 first) as [t|]; [|discriminate].
    destruct (@Validate _ (authValidator ParseWithClaims) v t) as [c|err] eqn:Ev.
    + assert (Hroles : assertStrings (index c "roles") = None).
      { apply authValidator_accepts in Ev.
        pose proof (Hjson _ _ _ c Ev eq_refl "roles") as Hno.
        destruct (index c "roles"); try reflexivity. by destruct (Hno l). }
      rewrite Hroles.
      destruct (assertString (index c "sub")); by intros [= <-] _.
    + intros Hev Hparsed. exfalso.
      assert (token = t) as -> by (destruct logger; by injection Hev).
      apply authValidator_accepts in Hparsed. congruence.
  - intros token -> . unfold AuthInterceptor, FromIncomingContext, logging.
    destruct (incoming ctx) as [md|]; [|discriminate].
    destruct (MD_Get md "authorization") as [|first others]; [discriminate|].
    destruct (negb (HasPrefix first "Bearer")); [discriminate|].
    destruct (sliceFrom 7 first) as [t|]; [|discriminate].
    destruct (@Validate _ (authValidator ParseWithClaims) v t) as [c|err] eqn:Ev.
    + intros Hev Hrefused. exfalso.
      assert (token = t) as ->.
      { destruct (assertString (index c "sub")); [|by injection Hev].
        destruct (assertStrings (index c "roles")); [|by injection Hev].
        destruct (assertStrings (index c "permissions")); by injection Hev. }
      apply authValidator_accepts in Ev. by apply (Hrefused c).
    + intros [= <-] _. by exists err.
Qed.

Lemma pkg_auth_never_handled_witness :
  decodesJSON jsonParser
  /\ @AuthInterceptor _ (authValidator jsonParser) zapLogger
       (auth.NewJWTValidator "secret" true) (ctxAuth "Bearer good") "/exchange.Orders/Get"
     = {| events := [Validated "good"]; outcome := Panicked "interface conversion" |}.
Proof.
  split; [exact jsonParser_decodesJSON|].
  apply (proj1 (proj2 (pkg_auth_never_handled jsonParser zapLogger
                         (auth.NewJWTValidator "secret" true) (ctxAuth "Bearer good")
                         "/exchange.Orders/Get" jsonParser_decodesJSON))
           "good"
           {[ "sub" := AnyString "u1"; "roles" := AnyOther; "permissions" := AnyOther ]});
    vm_compute; reflexivity.
Defined.
